(** * klighd-vscode: the interactive-layout overlay, the Theia diagram manager
      and the VS Code extension wrapper

    A shallow embedding of three TypeScript sources:

    - the interactive view ([renderInteractiveLayout], [renderLayer],
      [renderPositions], [renderConstraints], [layerCons], [posCons]);
    - [keith-diagram-manager.ts] (class [KeithDiagramManager]);
    - [klighd-extension.ts] (class [KLighDExtension]).

    JavaScript numbers that hold coordinates are IEEE 754 binary64 values and
    are modelled by Rocq's primitive [float]; numbers that hold identifiers,
    indices and lengths are modelled by [Z].  Objects that the code mutates live
    in an explicit store indexed by references.  A call either completes
    normally or throws. *)

From Stdlib Require Import ZArith Floats String List Bool Sorted Lia.
From stdpp Require Import base option list strings gmap.

Set Warnings "-register-all,-inexact-float".
Local Open Scope Z_scope.

(** ** Completions: a JavaScript evaluation returns or throws *)

Inductive JsError : Type :=
| TypeError                      (* property read on [undefined] *)
| Error (message : string).      (* [Error(message)] *)

Inductive Completion (A : Type) : Type :=
| Normal (value : A)
| Throw (e : JsError).

Arguments Normal {A} value.
Arguments Throw {A} e.

(** [a[i]] for a JavaScript array and an integral index: [undefined] ([None])
    outside [0 .. a.length - 1]. *)
Definition js_index {A : Type} (a : list A) (i : Z) : option A :=
  if i <? 0 then None else a !! Z.to_nat i.

(** ** The interactive view *)

Module Interactive.

(** *** Data of [constraint-classes] *)

Module Point.
Record t : Type := mk { x : float; y : float }.
End Point.

Module Dimension.
Record t : Type := mk { width : float; height : float }.
End Dimension.

(** Object identity of a graph element in the store. *)
Definition ref : Type := nat.

Module KNode.
Record t : Type := mk {
  children : list ref;
  selected : bool;
  layerId : Z;
  posId : Z;
  layerCons : Z;
  posCons : Z;
  hierWidth : float;
  hierHeight : float;
  size : Dimension.t;
  position : Point.t
}.

(** [node.hierHeight = v] *)
Definition set_hierHeight (v : float) (n : t) : t :=
  mk (children n) (selected n) (layerId n) (posId n) (layerCons n) (posCons n)
     (hierWidth n) v (size n) (position n).

(** [node.hierWidth = v] *)
Definition set_hierWidth (v : float) (n : t) : t :=
  mk (children n) (selected n) (layerId n) (posId n) (layerCons n) (posCons n)
     v (hierHeight n) (size n) (position n).
End KNode.

Module Layer.
Record t : Type := mk {
  leftX : float;
  rightX : float;
  mid : float;
  topY : float;
  botY : float
}.
End Layer.

(** The object store: what each reference currently denotes. *)
Definition Heap : Type := ref -> KNode.t.

(** [h[r] := n] *)
Definition store (h : Heap) (r : ref) (n : KNode.t) : Heap :=
  fun r' => if Nat.eqb r' r then n else h r'.

(** *** Virtual-DOM nodes

    [g children] is the JSX element [<g>...</g>] and [text s] a JSX text child.
    The factories of [interactiveView-objects] ([createRect],
    [createVerticalLine], [createCircle], [lock], [arrow]) are kept symbolic:
    each constructor records one call with its arguments. *)
Inductive VNode : Type :=
| g (children : list VNode)
| text (s : string)
| createRect (x y width height : float) (forbidden onlyLC : bool)
| createVerticalLine (x topY botY : float)
| createCircle (fill : bool) (x y : float) (forbidden : bool)
| lock (x y : float)
| arrow (x y : float) (vertical : bool).

(** Number of rectangles, lines and circles in a virtual-DOM tree. *)
Fixpoint shapes (v : VNode) : nat :=
  match v with
  | g children =>
      (fix sum (l : list VNode) : nat :=
         match l with
         | [] => 0%nat
         | c :: l' => (shapes c + sum l')%nat
         end) children
  | createRect _ _ _ _ _ _ => 1%nat
  | createVerticalLine _ _ _ => 1%nat
  | createCircle _ _ _ _ => 1%nat
  | text _ | lock _ _ | arrow _ _ _ => 0%nat
  end.

(** *** A stand-in for [constraint-utils]

    The helpers of [constraint-utils] live in another package, and the
    rendering functions below are abstracted over them.  This stand-in has the
    helpers' signatures and is used to run the functions on concrete graphs: the
    selected node is the first one flagged [selected], a node's layer and
    position are its [layerId] and [posId], and the layers are given. *)
Module Sample.

Definition filterKNodes (h : Heap) (children : list ref) : list ref := children.

Definition getSelectedNode (h : Heap) (nodes : list ref) : option ref :=
  List.find (fun n => KNode.selected (h n)) nodes.

Definition getLayers (layers : list Layer.t) (h : Heap) (nodes : list ref)
  : list Layer.t := layers.

Definition getLayerOfNode (h : Heap) (node : ref) (nodes : list ref)
    (layers : list Layer.t) : Z := KNode.layerId (h node).

Definition isLayerForbidden (h : Heap) (node : ref) (layer : Z) : bool := false.

Definition shouldOnlyLCBeSet (h : Heap) (node : ref) (layers : list Layer.t)
  : bool := false.

Definition getNodesOfLayer (h : Heap) (layer : Z) (nodes : list ref) : list ref :=
  List.filter (fun n => KNode.layerId (h n) =? layer) nodes.

Definition getPosInLayer (h : Heap) (layerNodes : list ref) (node : option ref)
  : Z :=
  match node with
  | Some n => KNode.posId (h n)
  | None => -1
  end.

(** A graph with two layers.  The root [0] has the children [1], [2] and [3];
    [1] and [2] lie in the first layer, [3] in the second. *)
Definition node (selected : bool) (layerId posId : Z) (y : float) : KNode.t :=
  KNode.mk [] selected layerId posId (-1) (-1) 0 0 (Dimension.mk 10 20) (Point.mk 0 y).

Definition root : KNode.t :=
  KNode.mk [1; 2; 3]%nat false 0 0 (-1) (-1) 0 0 (Dimension.mk 100 80) (Point.mk 0 0).

Definition layers : list Layer.t := [Layer.mk 0 20 10 0 80; Layer.mk 30 50 40 0 80].

(** Node [2] is being dragged. *)
Definition dragging : Heap :=
  fun r =>
    match r with
    | 0%nat => root
    | 1%nat => node false 0 0 10
    | 2%nat => node true 0 1 40
    | _ => node false 1 0 10
    end.

(** Nothing is selected. *)
Definition idle : Heap :=
  fun r =>
    match r with
    | 0%nat => root
    | 1%nat => node false 0 0 10
    | 2%nat => node false 0 1 40
    | _ => node false 1 0 10
    end.

(** A node with a layer constraint only, drawn below a root of width 5. *)
Definition layerConstrained : KNode.t :=
  KNode.mk [] false 0 0 0 (-1) 5 0 (Dimension.mk 10 10) (Point.mk 0 0).

End Sample.

Section Render.

(** The helpers imported from [constraint-utils].  They read the store and do
    not write to it. *)
Variable filterKNodes : Heap -> list ref -> list ref.
Variable getSelectedNode : Heap -> list ref -> option ref.
Variable getLayers : Heap -> list ref -> list Layer.t.
Variable getLayerOfNode : Heap -> ref -> list ref -> list Layer.t -> Z.
Variable isLayerForbidden : Heap -> ref -> Z -> bool.
Variable shouldOnlyLCBeSet : Heap -> ref -> list Layer.t -> bool.
Variable getNodesOfLayer : Heap -> Z -> list ref -> list ref.
Variable getPosInLayer : Heap -> list ref -> option ref -> Z.

(** [let target = nodes[0]; for (let node of nodes) if (node.selected) target = node] *)
Definition selectedTarget (h : Heap) (nodes : list ref) : option ref :=
  fold_left (fun target node => if KNode.selected (h node) then Some node else target)
            nodes (head nodes).

(** [layerNodes.sort((a, b) => a.posId - b.posId)]: ascending in [posId],
    nodes with equal [posId] keep their order. *)
Fixpoint insert_by_posId (h : Heap) (a : ref) (sorted : list ref) : list ref :=
  match sorted with
  | [] => [a]
  | b :: rest =>
      if KNode.posId (h a) - KNode.posId (h b) <=? 0
      then a :: sorted
      else b :: insert_by_posId h a rest
  end.

Definition sort_by_posId (h : Heap) (layerNodes : list ref) : list ref :=
  foldr (insert_by_posId h) [] layerNodes.

(** The loop [for (let i = 0; i < layerNodes.length - 1; i++)] of
    [renderPositions], entered at index [i] with [layerNodes[i ..]] left to
    visit; the loop state is [(result, shift)]. *)
Fixpoint positions_between (h : Heap) (curPos : Z) (x : float) (forbidden : bool)
    (i : Z) (layerNodes : list ref) (state : VNode * Z) : VNode * Z :=
  match layerNodes with
  | node :: ((next :: _) as rest) =>
      let '(result, shift) := state in
      let state' :=
        if negb (KNode.selected (h node)) && negb (KNode.selected (h next)) then
          let topY := (Point.y (KNode.position (h node))
                       + Dimension.height (KNode.size (h node)))%float in
          let botY := Point.y (KNode.position (h next)) in
          let midY := (topY + (botY - topY) / 2)%float in
          (g [result; createCircle (curPos =? i + shift) x midY forbidden], shift)
        else (result, 0) in
      positions_between h curPos x forbidden (i + 1) rest state'
  | _ => state
  end.

Definition renderPositions (current : Z) (nodes : list ref) (layers : list Layer.t)
    (forbidden : bool) (h : Heap) : Completion VNode :=
  let layerNodes := getNodesOfLayer h current nodes in
  let target := selectedTarget h nodes in
  let curPos := getPosInLayer h layerNodes target in
  let layerNodes := sort_by_posId h layerNodes in
  match layerNodes with
  | first :: _ =>
      let result := g [] in
      match js_index layers current with
      | None => Throw TypeError
      | Some layer =>
          let x := Layer.mid layer in
          let shift := 1 in
          let '(result, shift) :=
            positions_between h curPos x forbidden 0 layerNodes (result, shift) in
          let result :=
            if negb (KNode.selected (h first)) then
              let y := (Layer.topY layer
                        + (Point.y (KNode.position (h first)) - Layer.topY layer) / 2)%float in
              g [result; createCircle (curPos =? 0) x y forbidden]
            else result in
          let last := default first (last layerNodes) in
          let result :=
            if negb (KNode.selected (h last)) then
              let y := (Layer.botY layer
                        - (Layer.botY layer
                           - (Point.y (KNode.position (h last))
                              + Dimension.height (KNode.size (h last)))) / 2)%float in
              g [result;
                 createCircle (curPos =? Z.of_nat (length layerNodes) - 1 + shift)
                              x y forbidden]
            else result in
          Normal result
      end
  | [] =>
      match last layers with
      | None => Throw TypeError
      | Some lastL =>
          let x := (Layer.mid lastL + (Layer.rightX lastL - Layer.leftX lastL))%float in
          let y := (Layer.topY lastL + (Layer.botY lastL - Layer.topY lastL) / 2)%float in
          Normal (g [createCircle true x y forbidden])
      end
  end.

(** The loop [for (let i = 0; i < layers.length; i++)] of [renderLayer],
    entered at index [i] with [layers[i ..]] left to visit. *)
Fixpoint layers_loop (currentLayer : Z) (topY botY : float) (forbidden onlyLC : bool)
    (i : Z) (layers : list Layer.t) (result : VNode) : VNode :=
  match layers with
  | [] => result
  | layer :: rest =>
      let result' :=
        if i =? currentLayer then
          g [result;
             createRect (Layer.leftX layer) topY
                        (Layer.rightX layer - Layer.leftX layer)%float
                        (botY - topY)%float forbidden onlyLC]
        else g [result; createVerticalLine (Layer.mid layer) topY botY] in
      layers_loop currentLayer topY botY forbidden onlyLC (i + 1) rest result'
  end.

(** [renderLayer] returns its completion and the store it leaves behind. *)
Definition renderLayer (nodes : list ref) (root : ref) (h : Heap)
  : Completion VNode * Heap :=
  match getSelectedNode h nodes with
  | Some selNode =>
      let layers := getLayers h nodes in
      let currentLayer := getLayerOfNode h selNode nodes layers in
      let forbidden := isLayerForbidden h selNode currentLayer in
      match head layers, last layers with
      | Some layer0, Some lastL =>
          let topY := Layer.topY layer0 in
          let botY := Layer.botY layer0 in
          let rightX := Layer.rightX lastL in
          let onlyLC := shouldOnlyLCBeSet h selNode layers
                        && negb (KNode.layerId (h selNode) =? currentLayer) in
          let result := g [] in
          let result := layers_loop currentLayer topY botY forbidden onlyLC 0 layers result in
          let lastLNodes := getNodesOfLayer h (Z.of_nat (length layers) - 1) nodes in
          let showNewLayer :=
            match lastLNodes with
            | [only] => negb (KNode.selected (h only))
            | _ => true
            end in
          let '(rightX, result) :=
            if showNewLayer then
              ((Layer.rightX lastL + Layer.rightX lastL - Layer.leftX lastL)%float,
               if currentLayer =? Z.of_nat (length layers) then
                 g [result;
                    createRect (Layer.rightX lastL) topY
                               (Layer.rightX lastL - Layer.leftX lastL)%float
                               (botY - topY)%float forbidden onlyLC]
               else
                 g [result;
                    createVerticalLine
                      (Layer.mid lastL + (Layer.rightX lastL - Layer.leftX lastL))%float
                      topY botY])
            else (rightX, result) in
          let h := store h root
                     (KNode.set_hierHeight (Dimension.height (KNode.size (h root))) (h root)) in
          let h := store h root
                     (KNode.set_hierWidth (rightX - Layer.leftX layer0 + 10)%float (h root)) in
          if negb onlyLC then
            match renderPositions currentLayer nodes layers forbidden h with
            | Normal positions => (Normal (g [result; positions]), h)
            | Throw e => (Throw e, h)
            end
          else (Normal result, h)
      | _, _ => (Throw TypeError, h)
      end
  | None => (Normal (g []), h)
  end.

Definition renderInteractiveLayout (root : ref) (h : Heap) : Completion VNode * Heap :=
  let nodes := filterKNodes h (KNode.children (h root)) in
  match renderLayer nodes root h with
  | (Normal layer, h') => (Normal (g [layer]), h')
  | (Throw e, h') => (Throw e, h')
  end.

(** *** Facts about the store and the loops *)

Lemma store_same (h : Heap) (r : ref) (n : KNode.t) : store h r n r = n.
Proof. unfold store. now rewrite Nat.eqb_refl. Qed.

Lemma store_other (h : Heap) (r r' : ref) (n : KNode.t) :
  r' <> r -> store h r n r' = h r'.
Proof.
  intros Hne. unfold store.
  destruct (Nat.eqb_spec r' r) as [Heq | _]; [contradiction | reflexivity].
Qed.

(** The model of [Array.prototype.sort] rearranges the nodes and leaves them
    in ascending order of [posId]. *)
Lemma insert_by_posId_Permutation (h : Heap) (a : ref) (l : list ref) :
  insert_by_posId h a l ≡ₚ a :: l.
Proof.
  induction l as [| b rest IH]; simpl; [reflexivity |].
  destruct (_ <=? _); [reflexivity |].
  rewrite IH. apply Permutation_swap.
Qed.

Lemma sort_by_posId_Permutation (h : Heap) (l : list ref) :
  sort_by_posId h l ≡ₚ l.
Proof.
  induction l as [| a rest IH]; simpl; [reflexivity |].
  now rewrite insert_by_posId_Permutation, IH.
Qed.

Lemma insert_by_posId_sorted (h : Heap) (a : ref) (l : list ref) :
  StronglySorted (fun n m => KNode.posId (h n) <= KNode.posId (h m)) l ->
  StronglySorted (fun n m => KNode.posId (h n) <= KNode.posId (h m))
                 (insert_by_posId h a l).
Proof.
  induction l as [| b rest IH]; intros Hsorted; simpl.
  - constructor; constructor.
  - apply StronglySorted_inv in Hsorted. destruct Hsorted as [Hrest Hb].
    destruct (Z.leb_spec (KNode.posId (h a) - KNode.posId (h b)) 0) as [Hle | Hgt].
    + constructor; [constructor; assumption |].
      constructor; [lia |].
      eapply Forall_impl; [exact Hb |]. simpl. intros m Hm. lia.
    + constructor; [apply IH; assumption |].
      rewrite insert_by_posId_Permutation.
      constructor; [lia | assumption].
Qed.

Lemma sort_by_posId_sorted (h : Heap) (l : list ref) :
  StronglySorted (fun n m => KNode.posId (h n) <= KNode.posId (h m))
                 (sort_by_posId h l).
Proof.
  induction l as [| a rest IH]; simpl.
  - constructor.
  - apply insert_by_posId_sorted, IH.
Qed.

Lemma length_sort_by_posId (h : Heap) (l : list ref) :
  length (sort_by_posId h l) = length l.
Proof. apply Permutation_length, sort_by_posId_Permutation. Qed.

(** Every layer contributes exactly one shape. *)
Lemma shapes_layers_loop (currentLayer : Z) (topY botY : float)
    (forbidden onlyLC : bool) (layers : list Layer.t) :
  forall (i : Z) (result : VNode),
    shapes (layers_loop currentLayer topY botY forbidden onlyLC i layers result)
    = (shapes result + length layers)%nat.
Proof.
  induction layers as [| layer rest IH]; intros i result; simpl.
  - lia.
  - rewrite IH. destruct (i =? currentLayer); simpl; lia.
Qed.

(** Every pair of neighbours contributes at most one circle. *)
Lemma shapes_positions_between (h : Heap) (curPos : Z) (x : float)
    (forbidden : bool) (layerNodes : list ref) :
  forall (i : Z) (result : VNode) (shift : Z),
    (shapes (fst (positions_between h curPos x forbidden i layerNodes (result, shift)))
     <= shapes result + Nat.pred (length layerNodes))%nat.
Proof.
  induction layerNodes as [| node rest IH]; intros i result shift.
  - simpl. lia.
  - destruct rest as [| next rest'].
    + simpl. lia.
    + cbn [positions_between].
      destruct (negb (KNode.selected (h node)) && negb (KNode.selected (h next))).
      * etransitivity; [apply IH |]. simpl. lia.
      * etransitivity; [apply IH |]. simpl. lia.
Qed.

Lemma renderPositions_shapes (current : Z) (nodes : list ref)
    (layers : list Layer.t) (forbidden : bool) (h : Heap) (v : VNode) :
  renderPositions current nodes layers forbidden h = Normal v ->
  (shapes v <= length (getNodesOfLayer h current nodes) + 1)%nat.
Proof.
  unfold renderPositions.
  rewrite <- (length_sort_by_posId h (getNodesOfLayer h current nodes)).
  destruct (sort_by_posId h (getNodesOfLayer h current nodes)) as [| first rest] eqn:Hsort.
  - destruct (last layers); intros Hv; inversion Hv; subst. simpl. lia.
  - destruct (js_index layers current) as [layer |]; [| discriminate].
    pose proof (shapes_positions_between h
                  (getPosInLayer h (getNodesOfLayer h current nodes)
                                 (selectedTarget h nodes))
                  (Layer.mid layer) forbidden (first :: rest) 0 (g []) 1) as Hloop.
    destruct (positions_between _ _ _ _ _ _ _) as [result shift].
    simpl in Hloop.
    intros Hv; inversion Hv; subst; clear Hv.
    destruct (negb (KNode.selected (h first)));
      destruct (negb (KNode.selected (h (default first (last (first :: rest))))));
      simpl; lia.
Qed.

Lemma renderPositions_returns (current : Z) (nodes : list ref)
    (layers : list Layer.t) (forbidden : bool) (h : Heap) :
  layers <> [] ->
  (getNodesOfLayer h current nodes <> [] -> is_Some (js_index layers current)) ->
  exists v, renderPositions current nodes layers forbidden h = Normal v.
Proof.
  intros Hlayers Hcur. unfold renderPositions.
  destruct (sort_by_posId h (getNodesOfLayer h current nodes)) as [| first rest] eqn:Hsort.
  - destruct (last layers) as [lastL |] eqn:Hlast; [eauto |].
    apply last_None in Hlast. contradiction.
  - destruct Hcur as [layer Hlayer].
    + intros Hnil. rewrite Hnil in Hsort. discriminate.
    + rewrite Hlayer. destruct (positions_between _ _ _ _ _ _ _). eauto.
Qed.

(** With a selected node and at least one layer, [renderLayer] draws at most
    one shape per layer and one for the empty last layer, updates the store,
    and then either returns or hands over to [renderPositions]. *)
Lemma renderLayer_selected (nodes : list ref) (root selNode : ref) (h : Heap) :
  getSelectedNode h nodes = Some selNode ->
  getLayers h nodes <> [] ->
  let layers := getLayers h nodes in
  let current := getLayerOfNode h selNode nodes layers in
  let forbidden := isLayerForbidden h selNode current in
  exists (result : VNode) (h2 : Heap) (withPositions : bool),
    (shapes result <= length layers + 1)%nat
    /\ renderLayer nodes root h =
       if withPositions then
         match renderPositions current nodes layers forbidden h2 with
         | Normal positions => (Normal (g [result; positions]), h2)
         | Throw e => (Throw e, h2)
         end
       else (Normal result, h2).
Proof.
  intros Hsel Hlayers. cbv zeta. unfold renderLayer. rewrite Hsel.
  destruct (head (getLayers h nodes)) as [layer0 |] eqn:Hhead.
  2: { apply head_None in Hhead. contradiction. }
  destruct (last (getLayers h nodes)) as [lastL |] eqn:Hlast.
  2: { apply last_None in Hlast. contradiction. }
  set (onlyLC := shouldOnlyLCBeSet h selNode (getLayers h nodes) && _).
  set (loop := layers_loop _ _ _ _ _ 0 (getLayers h nodes) (g [])).
  assert (Hloop : shapes loop = length (getLayers h nodes)).
  { subst loop. rewrite shapes_layers_loop. reflexivity. }
  destruct (match getNodesOfLayer h _ nodes with
            | [only] => negb (KNode.selected (h only))
            | _ => true
            end); cbv beta iota zeta.
  - eexists _, _, (negb onlyLC). split; [| reflexivity].
    destruct (_ =? Z.of_nat _); simpl; lia.
  - eexists _, _, (negb onlyLC). split; [| reflexivity]. lia.
Qed.

(** *** The claims about [renderLayer] and [renderInteractiveLayout] *)

(** C2.  When [getSelectedNode] yields [undefined], [renderLayer] returns the
    empty group [<g></g>], which holds no rectangle, line or circle, and it
    leaves the store as it found it: no field of the root (nor of any other
    object) changes, [hierHeight] and [hierWidth] included. *)
Theorem renderLayer_without_selection (nodes : list ref) (root : ref) (h : Heap) :
  getSelectedNode h nodes = None ->
  renderLayer nodes root h = (Normal (g []), h)
  /\ (forall v, fst (renderLayer nodes root h) = Normal v -> shapes v = 0%nat)
  /\ snd (renderLayer nodes root h) root = h root.
Proof.
  intros Hsel.
  assert (Hrun : renderLayer nodes root h = (Normal (g []), h)).
  { unfold renderLayer. now rewrite Hsel. }
  rewrite Hrun. split; [reflexivity | split].
  - intros v Hv. simpl in Hv. inversion Hv. reflexivity.
  - reflexivity.
Qed.

(** C10.  When a node is selected (and [getLayers] yields at least one layer,
    so that [layers[0]] exists), [renderLayer] writes two fields of the root:
    [hierHeight] becomes [root.size.height] and [hierWidth] becomes
    [rightX - layers[0].leftX + 10], where [rightX] is the last layer's
    [rightX], extended by that layer's width when the empty last layer is
    shown.  Every other field of the root keeps its value, and every object
    other than the root is left as it was, so no node of the list changes
    (the root is not one of them: they are its children); this holds whether
    or not the later call of [renderPositions] completes. *)
Theorem renderLayer_hierarchical_bounds (nodes : list ref) (root selNode : ref)
    (h : Heap) (layer0 lastL : Layer.t) :
  getSelectedNode h nodes = Some selNode ->
  head (getLayers h nodes) = Some layer0 ->
  last (getLayers h nodes) = Some lastL ->
  let lastLNodes :=
    getNodesOfLayer h (Z.of_nat (length (getLayers h nodes)) - 1) nodes in
  let emptyLastLayerShown :=
    match lastLNodes with
    | [only] => negb (KNode.selected (h only))
    | _ => true
    end in
  let rightX :=
    if emptyLastLayerShown
    then (Layer.rightX lastL + Layer.rightX lastL - Layer.leftX lastL)%float
    else Layer.rightX lastL in
  let h' := snd (renderLayer nodes root h) in
  h' root =
    KNode.mk (KNode.children (h root)) (KNode.selected (h root))
             (KNode.layerId (h root)) (KNode.posId (h root))
             (KNode.layerCons (h root)) (KNode.posCons (h root))
             (rightX - Layer.leftX layer0 + 10)%float
             (Dimension.height (KNode.size (h root)))
             (KNode.size (h root)) (KNode.position (h root))
  /\ (forall r : ref, r <> root -> h' r = h r)
  /\ (~ In root nodes -> forall n : ref, In n nodes -> h' n = h n).
Proof.
  intros Hsel Hhead Hlast. cbv zeta.
  unfold renderLayer. rewrite Hsel, Hhead, Hlast.
  set (lastLNodes := getNodesOfLayer h _ nodes).
  set (shown := match lastLNodes with [only] => negb (KNode.selected (h only)) | _ => true end).
  set (onlyLC := shouldOnlyLCBeSet h selNode (getLayers h nodes) && _).
  destruct shown; cbv beta iota zeta;
    (destruct (negb onlyLC); [destruct (renderPositions _ _ _ _ _) |]);
    cbn [snd];
    (split; [rewrite !store_same; reflexivity |];
     split; [intros r Hr; now rewrite !store_other |];
     intros Hroot n Hn; rewrite !store_other; [reflexivity | |];
     intros ->; contradiction).
Qed.

(** *** What the overlay shows *)

(** Number of leaves of a virtual-DOM tree that satisfy [p]. *)
Fixpoint count_leaves (p : VNode -> bool) (v : VNode) : nat :=
  match v with
  | g children =>
      (fix sum (l : list VNode) : nat :=
         match l with
         | [] => 0%nat
         | c :: l' => (count_leaves p c + sum l')%nat
         end) children
  | _ => if p v then 1%nat else 0%nat
  end.

Definition is_rect (v : VNode) : bool :=
  match v with createRect _ _ _ _ _ _ => true | _ => false end.

Definition is_line (v : VNode) : bool :=
  match v with createVerticalLine _ _ _ => true | _ => false end.

Definition is_circle (v : VNode) : bool :=
  match v with createCircle _ _ _ _ => true | _ => false end.

Definition is_filled_circle (v : VNode) : bool :=
  match v with createCircle fill _ _ _ => fill | _ => false end.

(** The layer loop marks each layer once: with a rectangle when its index is
    [currentLayer], with a line otherwise; it draws no circle. *)
Lemma layers_loop_marks (currentLayer : Z) (topY botY : float)
    (forbidden onlyLC : bool) (layers : list Layer.t) :
  forall (i : Z) (result : VNode),
    let result' := layers_loop currentLayer topY botY forbidden onlyLC i layers result in
    count_leaves is_rect result' =
      (count_leaves is_rect result
       + if ((i <=? currentLayer)%Z
             && (currentLayer <? i + Z.of_nat (length layers))%Z)%bool
         then 1 else 0)%nat
    /\ (count_leaves is_rect result' + count_leaves is_line result'
        = count_leaves is_rect result + count_leaves is_line result + length layers)%nat
    /\ count_leaves is_circle result' = count_leaves is_circle result.
Proof.
  induction layers as [| layer rest IH]; intros i result; cbv zeta.
  - simpl. rewrite Z.add_0_r.
    destruct (Z.leb_spec i currentLayer), (Z.ltb_spec currentLayer i);
      simpl; repeat split; lia.
  - cbn [layers_loop]. specialize (IH (i + 1)). cbv zeta in IH.
    assert (Hlen : Z.of_nat (length (layer :: rest)) = 1 + Z.of_nat (length rest))
      by (simpl length; lia).
    rewrite Hlen.
    destruct (Z.eqb_spec i currentLayer) as [Heq | Hne].
    + destruct (IH (g [result;
                       createRect (Layer.leftX layer) topY
                                  (Layer.rightX layer - Layer.leftX layer)%float
                                  (botY - topY)%float forbidden onlyLC]))
        as (Hrect & Hmarks & Hcircle).
      split; [rewrite Hrect | split; [rewrite Hmarks | rewrite Hcircle]];
        [| simpl; lia | simpl; lia].
      destruct (Z.leb_spec (i + 1) currentLayer); [lia |].
      destruct (Z.leb_spec i currentLayer); [| lia].
      destruct (Z.ltb_spec currentLayer (i + (1 + Z.of_nat (length rest))));
        simpl; lia.
    + destruct (IH (g [result; createVerticalLine (Layer.mid layer) topY botY]))
        as (Hrect & Hmarks & Hcircle).
      split; [rewrite Hrect | split; [rewrite Hmarks | rewrite Hcircle]];
        [| simpl; lia | simpl; lia].
      destruct (Z.leb_spec (i + 1) currentLayer),
               (Z.ltb_spec currentLayer (i + 1 + Z.of_nat (length rest))),
               (Z.leb_spec i currentLayer),
               (Z.ltb_spec currentLayer (i + (1 + Z.of_nat (length rest))));
        simpl; lia.
Qed.

(** Neighbours in a layer that are both unselected: the places between two
    nodes where the dragged node may go. *)
Fixpoint free_pairs (h : Heap) (layerNodes : list ref) : nat :=
  match layerNodes with
  | node :: ((next :: _) as rest) =>
      ((if negb (KNode.selected (h node)) && negb (KNode.selected (h next))
        then 1 else 0) + free_pairs h rest)%nat
  | _ => 0%nat
  end.

(** The selected nodes of a list. *)
Definition selected_of (h : Heap) (l : list ref) : list ref :=
  List.filter (fun n => KNode.selected (h n)) l.

(** One step of the position loop. *)
Lemma positions_between_step (h : Heap) (curPos : Z) (x : float) (forbidden : bool)
    (i : Z) (node next : ref) (rest : list ref) (result : VNode) (shift : Z) :
  positions_between h curPos x forbidden i (node :: next :: rest) (result, shift)
  = positions_between h curPos x forbidden (i + 1) (next :: rest)
      (if negb (KNode.selected (h node)) && negb (KNode.selected (h next)) then
         (g [result;
             createCircle (curPos =? i + shift) x
               (Point.y (KNode.position (h node))
                + Dimension.height (KNode.size (h node))
                + (Point.y (KNode.position (h next))
                   - (Point.y (KNode.position (h node))
                      + Dimension.height (KNode.size (h node)))) / 2)%float
               forbidden],
          shift)
       else (result, 0)).
Proof. reflexivity. Qed.

(** The position loop draws circles only: one for each free pair. *)
Lemma positions_between_marks (h : Heap) (curPos : Z) (x : float)
    (forbidden : bool) (p : VNode -> bool) (layerNodes : list ref) :
  (forall fill cx cy f, p (createCircle fill cx cy f) = false) ->
  forall (i : Z) (result : VNode) (shift : Z),
    count_leaves p (fst (positions_between h curPos x forbidden i layerNodes
                           (result, shift)))
    = count_leaves p result.
Proof.
  intros Hp. induction layerNodes as [| node rest IH]; intros i result shift.
  - reflexivity.
  - destruct rest as [| next rest']; [reflexivity |].
    rewrite positions_between_step.
    destruct (negb (KNode.selected (h node)) && negb (KNode.selected (h next)));
      rewrite IH; [| reflexivity].
    simpl. rewrite Hp. lia.
Qed.

Lemma positions_between_circles (h : Heap) (curPos : Z) (x : float)
    (forbidden : bool) (layerNodes : list ref) :
  forall (i : Z) (result : VNode) (shift : Z),
    count_leaves is_circle
      (fst (positions_between h curPos x forbidden i layerNodes (result, shift)))
    = (count_leaves is_circle result + free_pairs h layerNodes)%nat.
Proof.
  induction layerNodes as [| node rest IH]; intros i result shift.
  - simpl. lia.
  - destruct rest as [| next rest']; [simpl; lia |].
    rewrite positions_between_step. cbn [free_pairs].
    destruct (negb (KNode.selected (h node)) && negb (KNode.selected (h next)));
      rewrite IH; simpl; lia.
Qed.

(** The position loop fills at most one circle.  A circle drawn at index [j]
    stands for position [j + shift]; these positions grow from one circle to
    the next, and all of them lie from [i + shift] on and below
    [i + (n - 1) + shift'], where [n] nodes are left to visit and [shift'] is
    the shift the loop ends with.  The shift only ever drops, to 0, and only
    in a step of the loop. *)
Lemma positions_between_filled (h : Heap) (curPos : Z) (x : float)
    (forbidden : bool) (layerNodes : list ref) :
  forall (i : Z) (result : VNode) (shift : Z),
    shift <= 1 ->
    let final := positions_between h curPos x forbidden i layerNodes (result, shift) in
    (snd final = shift \/ (snd final = 0 /\ (2 <= length layerNodes)%nat))
    /\ (count_leaves is_filled_circle (fst final)
        = count_leaves is_filled_circle result
        \/ (count_leaves is_filled_circle (fst final)
            = S (count_leaves is_filled_circle result)
            /\ i + shift <= curPos
            /\ curPos < i + Z.of_nat (Nat.pred (length layerNodes)) + snd final)).
Proof.
  induction layerNodes as [| node rest IH]; intros i result shift Hshift; cbv zeta.
  - simpl. auto.
  - destruct rest as [| next rest']; [simpl; auto |].
    rewrite positions_between_step.
    destruct (negb (KNode.selected (h node)) && negb (KNode.selected (h next))).
    + specialize (IH (i + 1)
                     (g [result;
                         createCircle (curPos =? i + shift) x
                           (Point.y (KNode.position (h node))
                            + Dimension.height (KNode.size (h node))
                            + (Point.y (KNode.position (h next))
                               - (Point.y (KNode.position (h node))
                                  + Dimension.height (KNode.size (h node)))) / 2)%float
                           forbidden])
                     shift Hshift).
      cbv zeta in IH. destruct IH as [Hs Hf].
      set (final := positions_between h curPos x forbidden (i + 1) (next :: rest') _) in *.
      split.
      * destruct Hs as [Hs | [Hs Hlen]]; [left; exact Hs | right].
        split; [exact Hs | simpl; lia].
      * simpl length in *. simpl Nat.pred in *. simpl count_leaves in Hf.
        destruct (Z.eqb_spec curPos (i + shift)) as [Hcur | Hcur]; simpl in Hf.
        -- right. destruct Hf as [Hf | (Hf & Hlo & Hhi)]; [| lia].
           split; [lia |]. split; [lia |].
           destruct Hs as [Hs | [Hs Hlen]]; lia.
        -- destruct Hf as [Hf | (Hf & Hlo & Hhi)]; [left; lia | right].
           repeat split; try lia.
    + specialize (IH (i + 1) result 0 ltac:(lia)).
      cbv zeta in IH. destruct IH as [Hs Hf].
      set (final := positions_between h curPos x forbidden (i + 1) (next :: rest') _) in *.
      split.
      * right. split; [| simpl; lia]. destruct Hs as [Hs | [Hs _]]; exact Hs.
      * simpl length in *. simpl Nat.pred in *.
        destruct Hf as [Hf | (Hf & Hlo & Hhi)]; [left; exact Hf | right].
        repeat split; try lia.
Qed.

(** The number of places a layer offers: the free pairs, the place above the
    first node and the place below the last one, the latter two unless the
    node is selected; an empty layer offers one place. *)
Definition offered (h : Heap) (layerNodes : list ref) : nat :=
  match layerNodes with
  | [] => 1%nat
  | first :: _ =>
      (free_pairs h layerNodes
       + (if KNode.selected (h first) then 0 else 1)
       + (if KNode.selected (h (default first (last layerNodes))) then 0 else 1))%nat
  end.

Lemma offered_step (h : Heap) (a b : ref) (rest : list ref) :
  (offered h (a :: b :: rest) + (if KNode.selected (h b) then 0 else 1)
   = (if negb (KNode.selected (h a)) && negb (KNode.selected (h b)) then 1 else 0)
     + (if KNode.selected (h a) then 0 else 1)
     + offered h (b :: rest))%nat.
Proof.
  unfold offered. cbn [free_pairs].
  replace (default a (last (a :: b :: rest))) with (default b (last (b :: rest))).
  - destruct (KNode.selected (h a)), (KNode.selected (h b)); simpl; lia.
  - change (last (a :: b :: rest)) with (last (b :: rest)).
    destruct (last (b :: rest)) eqn:Hlast; [reflexivity |].
    apply last_None in Hlast. discriminate.
Qed.

(** A layer of [n] nodes none of which is selected offers [n + 1] places. *)
Lemma offered_none_selected (h : Heap) (layerNodes : list ref) :
  selected_of h layerNodes = [] ->
  offered h layerNodes = (length layerNodes + 1)%nat.
Proof.
  destruct layerNodes as [| a rest]; [reflexivity |].
  revert a. induction rest as [| b rest IH]; intros a Hnone.
  - unfold selected_of in Hnone. simpl in Hnone. unfold offered. simpl.
    destruct (KNode.selected (h a)); [discriminate | reflexivity].
  - pose proof (offered_step h a b rest) as Hstep.
    unfold selected_of in Hnone. cbn [List.filter] in Hnone.
    destruct (KNode.selected (h a)); [discriminate |].
    specialize (IH b Hnone).
    cbn [List.filter] in Hnone.
    destruct (KNode.selected (h b)); [discriminate |].
    simpl in *. lia.
Qed.

(** A layer of [n] nodes exactly one of which is selected offers [n - 1]
    places. *)
Lemma offered_one_selected (h : Heap) (layerNodes : list ref) :
  length (selected_of h layerNodes) = 1%nat ->
  offered h layerNodes = (length layerNodes - 1)%nat.
Proof.
  destruct layerNodes as [| a rest]; [discriminate |].
  revert a. induction rest as [| b rest IH]; intros a Hone.
  - unfold selected_of in Hone. simpl in Hone. unfold offered. simpl.
    destruct (KNode.selected (h a)); [reflexivity | discriminate].
  - pose proof (offered_step h a b rest) as Hstep.
    unfold selected_of in Hone. cbn [List.filter] in Hone.
    destruct (KNode.selected (h a)) eqn:Ha.
    + assert (Hnone : selected_of h (b :: rest) = []).
      { simpl in Hone. apply Nat.succ_inj in Hone.
        now apply length_zero_iff_nil in Hone. }
      pose proof (offered_none_selected h (b :: rest) Hnone) as Hrest.
      unfold selected_of in Hnone. cbn [List.filter] in Hnone.
      destruct (KNode.selected (h b)); [discriminate |].
      simpl in *. lia.
    + specialize (IH b Hone).
      destruct (KNode.selected (h b)); simpl in *; lia.
Qed.

(** Sorting keeps the selected nodes of a layer. *)
Lemma length_selected_of_Permutation (h : Heap) (l l' : list ref) :
  l ≡ₚ l' -> length (selected_of h l) = length (selected_of h l').
Proof.
  unfold selected_of. induction 1 as [| a l l' _ IH | a b l | l l' l'' _ IH1 _ IH2].
  - reflexivity.
  - simpl. destruct (KNode.selected (h a)); simpl; congruence.
  - simpl. destruct (KNode.selected (h a)), (KNode.selected (h b)); reflexivity.
  - congruence.
Qed.

(** What [renderPositions] draws when it returns: circles only, as many as
    the (sorted) layer offers places, at most one of them filled, and
    exactly one, filled, for an empty layer. *)
Lemma renderPositions_summary (current : Z) (nodes : list ref)
    (layers : list Layer.t) (forbidden : bool) (h : Heap) (v : VNode) :
  renderPositions current nodes layers forbidden h = Normal v ->
  count_leaves is_rect v = 0%nat
  /\ count_leaves is_line v = 0%nat
  /\ count_leaves is_circle v
     = offered h (sort_by_posId h (getNodesOfLayer h current nodes))
  /\ (count_leaves is_filled_circle v <= 1)%nat
  /\ (getNodesOfLayer h current nodes = [] -> count_leaves is_filled_circle v = 1%nat).
Proof.
  unfold renderPositions.
  destruct (sort_by_posId h (getNodesOfLayer h current nodes)) as [| first rest] eqn:Hsort.
  - destruct (last layers); intros Hv; inversion Hv; subst. simpl. auto 6.
  - assert (Hnonempty : getNodesOfLayer h current nodes <> []).
    { intros Hnil. rewrite Hnil in Hsort. discriminate. }
    destruct (js_index layers current) as [layer |]; [| discriminate].
    set (curPos := getPosInLayer h (getNodesOfLayer h current nodes)
                                 (selectedTarget h nodes)).
    pose proof (positions_between_marks h curPos (Layer.mid layer) forbidden
                  is_rect (first :: rest) ltac:(reflexivity) 0 (g []) 1) as Hrect.
    pose proof (positions_between_marks h curPos (Layer.mid layer) forbidden
                  is_line (first :: rest) ltac:(reflexivity) 0 (g []) 1) as Hline.
    pose proof (positions_between_circles h curPos (Layer.mid layer) forbidden
                  (first :: rest) 0 (g []) 1) as Hcircle.
    pose proof (positions_between_filled h curPos (Layer.mid layer) forbidden
                  (first :: rest) 0 (g []) 1 ltac:(lia)) as Hfilled.
    cbv zeta in Hfilled.
    destruct (positions_between h curPos (Layer.mid layer) forbidden 0
                (first :: rest) (g [], 1)) as [result shift].
    cbn [fst snd] in *. destruct Hfilled as [Hshift Hfilled].
    intros Hv; inversion Hv; subst v; clear Hv.
    unfold offered.
    set (lastNode := default first (last (first :: rest))).
    simpl length in *. simpl Nat.pred in *.
    change (count_leaves is_filled_circle (g [])) with 0%nat in Hfilled.
    change (count_leaves is_rect (g [])) with 0%nat in Hrect.
    change (count_leaves is_line (g [])) with 0%nat in Hline.
    change (count_leaves is_circle (g [])) with 0%nat in Hcircle.
    destruct (KNode.selected (h first)); destruct (KNode.selected (h lastNode));
      cbn [negb]; simpl count_leaves;
      (split; [lia |]); (split; [lia |]); (split; [lia |]);
      (split; [| intros Hnil; contradiction]);
      repeat match goal with
             | |- context [(?a =? ?b)%Z] => destruct (Z.eqb_spec a b)
             end;
      simpl; lia.
Qed.

(** What [renderLayer] draws for the layers, before the positions. *)
Lemma renderLayer_marks (nodes : list ref) (root selNode : ref) (h : Heap) :
  getSelectedNode h nodes = Some selNode ->
  getLayers h nodes <> [] ->
  let layers := getLayers h nodes in
  let current := getLayerOfNode h selNode nodes layers in
  let forbidden := isLayerForbidden h selNode current in
  let onlyLC := shouldOnlyLCBeSet h selNode layers
                && negb (KNode.layerId (h selNode) =? current) in
  let emptyLastLayerShown :=
    match getNodesOfLayer h (Z.of_nat (length layers) - 1) nodes with
    | [only] => negb (KNode.selected (h only))
    | _ => true
    end in
  exists (result : VNode) (h2 : Heap),
    count_leaves is_rect result
    = ((if ((0 <=? current)%Z && (current <? Z.of_nat (length layers))%Z)%bool
        then 1 else 0)
       + (if (emptyLastLayerShown && (current =? Z.of_nat (length layers))%Z)%bool
          then 1 else 0))%nat
    /\ (count_leaves is_rect result + count_leaves is_line result
        = length layers + (if emptyLastLayerShown then 1 else 0))%nat
    /\ count_leaves is_circle result = 0%nat
    /\ renderLayer nodes root h =
       if negb onlyLC then
         match renderPositions current nodes layers forbidden h2 with
         | Normal positions => (Normal (g [result; positions]), h2)
         | Throw e => (Throw e, h2)
         end
       else (Normal result, h2).
Proof.
  intros Hsel Hlayers. cbv zeta. unfold renderLayer. rewrite Hsel.
  destruct (head (getLayers h nodes)) as [layer0 |] eqn:Hhead.
  2: { apply head_None in Hhead. contradiction. }
  destruct (last (getLayers h nodes)) as [lastL |] eqn:Hlast.
  2: { apply last_None in Hlast. contradiction. }
  set (current := getLayerOfNode h selNode nodes (getLayers h nodes)).
  set (onlyLC := shouldOnlyLCBeSet h selNode (getLayers h nodes) && _).
  pose proof (layers_loop_marks current (Layer.topY layer0) (Layer.botY layer0)
                (isLayerForbidden h selNode current) onlyLC (getLayers h nodes)
                0 (g [])) as Hloop.
  cbv zeta in Hloop.
  set (loop := layers_loop _ _ _ _ _ 0 (getLayers h nodes) (g [])) in *.
  destruct Hloop as (Hrect & Hmarks & Hcircle).
  change (count_leaves is_rect (g [])) with 0%nat in *.
  change (count_leaves is_line (g [])) with 0%nat in *.
  change (count_leaves is_circle (g [])) with 0%nat in *.
  rewrite Z.add_0_l in Hrect.
  destruct (match getNodesOfLayer h _ nodes with
            | [only] => negb (KNode.selected (h only))
            | _ => true
            end); cbv beta iota zeta.
  - eexists _, _. repeat match goal with |- _ /\ _ => split end;
      [| | | reflexivity].
    + destruct (Z.eqb_spec current (Z.of_nat (length (getLayers h nodes))));
        simpl; rewrite Hrect; simpl;
        destruct ((0 <=? current) && (current <? Z.of_nat (length (getLayers h nodes))));
        lia.
    + destruct (current =? Z.of_nat (length (getLayers h nodes))); simpl; lia.
    + destruct (current =? Z.of_nat (length (getLayers h nodes))); simpl; lia.
  - eexists _, _. repeat match goal with |- _ /\ _ => split end;
      [| | | reflexivity]; simpl; lia.
Qed.

(** When [renderLayer] returns a node, there were layers, and the node is
    the layer marks followed, unless only the layer constraint will be set,
    by the positions. *)
Lemma renderLayer_normal (nodes : list ref) (root selNode : ref) (h h' : Heap)
    (v : VNode) :
  getSelectedNode h nodes = Some selNode ->
  renderLayer nodes root h = (Normal v, h') ->
  let layers := getLayers h nodes in
  let current := getLayerOfNode h selNode nodes layers in
  let onlyLC := shouldOnlyLCBeSet h selNode layers
                && negb (KNode.layerId (h selNode) =? current) in
  let emptyLastLayerShown :=
    match getNodesOfLayer h (Z.of_nat (length layers) - 1) nodes with
    | [only] => negb (KNode.selected (h only))
    | _ => true
    end in
  layers <> []
  /\ count_leaves is_rect v
     = ((if ((0 <=? current)%Z && (current <? Z.of_nat (length layers))%Z)%bool
         then 1 else 0)
        + (if (emptyLastLayerShown && (current =? Z.of_nat (length layers))%Z)%bool
           then 1 else 0))%nat
  /\ (count_leaves is_rect v + count_leaves is_line v
      = length layers + (if emptyLastLayerShown then 1 else 0))%nat
  /\ count_leaves is_circle v
     = (if onlyLC then 0%nat
        else offered h' (sort_by_posId h' (getNodesOfLayer h' current nodes))).
Proof.
  intros Hsel Hrun. cbv zeta.
  assert (Hlayers : getLayers h nodes <> []).
  { intros Hnil. unfold renderLayer in Hrun. rewrite Hsel, Hnil in Hrun.
    simpl in Hrun. discriminate. }
  split; [exact Hlayers |].
  destruct (renderLayer_marks nodes root selNode h Hsel Hlayers)
    as (result & h2 & Hrect & Hmarks & Hcircle & Heq).
  cbv zeta in Hrect, Hmarks, Heq. rewrite Heq in Hrun. clear Heq.
  destruct (shouldOnlyLCBeSet h selNode (getLayers h nodes)
            && negb (KNode.layerId (h selNode)
                     =? getLayerOfNode h selNode nodes (getLayers h nodes)));
    cbn [negb] in Hrun.
  - inversion Hrun; subst. auto.
  - destruct (renderPositions _ _ _ _ h2) as [positions | e] eqn:Hpos;
      inversion Hrun; subst; clear Hrun.
    apply renderPositions_summary in Hpos.
    destruct Hpos as (Hprect & Hpline & Hpcircle & _).
    simpl count_leaves. rewrite Hprect, Hpline, Hpcircle, Hcircle.
    repeat split; lia.
Qed.

(** The store that [renderLayer] leaves when a node is selected and there
    are layers: the root with its two bounds written, everything else as
    before. *)
Lemma renderLayer_root_after (nodes : list ref) (root selNode : ref) (h : Heap)
    (layer0 lastL : Layer.t) :
  getSelectedNode h nodes = Some selNode ->
  head (getLayers h nodes) = Some layer0 ->
  last (getLayers h nodes) = Some lastL ->
  let rightX :=
    if match getNodesOfLayer h (Z.of_nat (length (getLayers h nodes)) - 1) nodes with
       | [only] => negb (KNode.selected (h only))
       | _ => true
       end
    then (Layer.rightX lastL + Layer.rightX lastL - Layer.leftX lastL)%float
    else Layer.rightX lastL in
  snd (renderLayer nodes root h) root
  = KNode.set_hierWidth (rightX - Layer.leftX layer0 + 10)%float
      (KNode.set_hierHeight (Dimension.height (KNode.size (h root))) (h root)).
Proof.
  intros Hsel Hhead Hlast. cbv zeta.
  unfold renderLayer. rewrite Hsel, Hhead, Hlast.
  set (onlyLC := shouldOnlyLCBeSet h selNode (getLayers h nodes) && _).
  destruct (match getNodesOfLayer h _ nodes with
            | [only] => negb (KNode.selected (h only))
            | _ => true
            end); cbv beta iota zeta;
    (destruct (negb onlyLC); [destruct (renderPositions _ _ _ _ _) |]);
    cbn [snd]; now rewrite !store_same.
Qed.

(** Without a selected node the target is the first node. *)
Lemma fold_target_unselected (h : Heap) (l : list ref) (target : option ref) :
  selected_of h l = [] ->
  fold_left (fun target node => if KNode.selected (h node) then Some node else target)
            l target = target.
Proof.
  revert target. induction l as [| n l IH]; intros target Hnone; [reflexivity |].
  unfold selected_of in Hnone. simpl in *.
  destruct (KNode.selected (h n)); [discriminate | now apply IH].
Qed.

Lemma sort_by_posId_sorted_id (h : Heap) (l : list ref) :
  StronglySorted (fun n m => KNode.posId (h n) <= KNode.posId (h m)) l ->
  sort_by_posId h l = l.
Proof.
  induction l as [| a rest IH]; intros Hsorted; [reflexivity |].
  apply StronglySorted_inv in Hsorted. destruct Hsorted as [Hrest Ha].
  simpl. rewrite (IH Hrest).
  destruct rest as [| b rest']; [reflexivity |]. simpl.
  apply Forall_inv in Ha.
  destruct (Z.leb_spec (KNode.posId (h a) - KNode.posId (h b)) 0); [reflexivity | lia].
Qed.

(** *** Further properties of the overlay *)

(** X1.  The overlay highlights at most one layer with a rectangle: exactly
    one when the current layer is one of the layers, none when the current
    layer lies before the first layer or beyond the empty last layer. *)
Theorem renderLayer_highlights_one_layer (nodes : list ref) (root selNode : ref)
    (h h' : Heap) (v : VNode) :
  getSelectedNode h nodes = Some selNode ->
  renderLayer nodes root h = (Normal v, h') ->
  let layers := getLayers h nodes in
  let current := getLayerOfNode h selNode nodes layers in
  (count_leaves is_rect v <= 1)%nat
  /\ (0 <= current < Z.of_nat (length layers) -> count_leaves is_rect v = 1%nat)
  /\ (current < 0 \/ Z.of_nat (length layers) < current ->
      count_leaves is_rect v = 0%nat).
Proof.
  intros Hsel Hrun. cbv zeta.
  destruct (renderLayer_normal nodes root selNode h h' v Hsel Hrun)
    as (_ & Hrect & _).
  cbv zeta in Hrect. rewrite Hrect. clear Hrect.
  set (current := getLayerOfNode h selNode nodes (getLayers h nodes)).
  destruct (match getNodesOfLayer h _ nodes with
            | [only] => negb (KNode.selected (h only))
            | _ => true
            end);
    destruct (Z.leb_spec 0 current),
             (Z.ltb_spec current (Z.of_nat (length (getLayers h nodes)))),
             (Z.eqb_spec current (Z.of_nat (length (getLayers h nodes))));
    simpl; repeat split; intros; lia.
Qed.

(** X2.  Every layer gets exactly one mark, a rectangle or a vertical line,
    and one more mark stands for the empty last layer when it is shown (that
    is, unless the selected node is the only node of the last layer). *)
Theorem renderLayer_marks_every_layer (nodes : list ref) (root selNode : ref)
    (h h' : Heap) (v : VNode) :
  getSelectedNode h nodes = Some selNode ->
  renderLayer nodes root h = (Normal v, h') ->
  let layers := getLayers h nodes in
  let emptyLastLayerShown :=
    match getNodesOfLayer h (Z.of_nat (length layers) - 1) nodes with
    | [only] => negb (KNode.selected (h only))
    | _ => true
    end in
  (count_leaves is_rect v + count_leaves is_line v
   = length layers + (if emptyLastLayerShown then 1 else 0))%nat.
Proof.
  intros Hsel Hrun.
  destruct (renderLayer_normal nodes root selNode h h' v Hsel Hrun)
    as (_ & _ & Hmarks & _).
  exact Hmarks.
Qed.

(** X3.  When only the layer constraint will be set on release
    ([shouldOnlyLCBeSet] holds and the node has left its layer), no position
    circle is drawn. *)
Theorem renderLayer_layer_constraint_only (nodes : list ref) (root selNode : ref)
    (h h' : Heap) (v : VNode) :
  getSelectedNode h nodes = Some selNode ->
  renderLayer nodes root h = (Normal v, h') ->
  shouldOnlyLCBeSet h selNode (getLayers h nodes) = true ->
  KNode.layerId (h selNode) <> getLayerOfNode h selNode nodes (getLayers h nodes) ->
  count_leaves is_circle v = 0%nat.
Proof.
  intros Hsel Hrun Honly Hmoved.
  destruct (renderLayer_normal nodes root selNode h h' v Hsel Hrun)
    as (_ & _ & _ & Hcircle).
  cbv zeta in Hcircle. rewrite Honly in Hcircle.
  destruct (Z.eqb_spec (KNode.layerId (h selNode))
                       (getLayerOfNode h selNode nodes (getLayers h nodes)));
    [contradiction | exact Hcircle].
Qed.

(** X4.  A selected node in a graph for which [getLayers] yields no layer
    makes [renderInteractiveLayout] throw a [TypeError] (the read of
    [layers[0].topY]); the store is left as it was. *)
Theorem renderInteractiveLayout_without_layers (root selNode : ref) (h : Heap) :
  let nodes := filterKNodes h (KNode.children (h root)) in
  getSelectedNode h nodes = Some selNode ->
  getLayers h nodes = [] ->
  renderInteractiveLayout root h = (Throw TypeError, h).
Proof.
  cbv zeta. intros Hsel Hnil.
  unfold renderInteractiveLayout, renderLayer. now rewrite Hsel, Hnil.
Qed.

(** X5.  Of the circles that [renderPositions] draws at most one is filled;
    for a layer without nodes it draws one circle, and that one is filled. *)
Theorem renderPositions_one_filled_circle (current : Z) (nodes : list ref)
    (layers : list Layer.t) (forbidden : bool) (h : Heap) (v : VNode) :
  renderPositions current nodes layers forbidden h = Normal v ->
  (count_leaves is_filled_circle v <= 1)%nat
  /\ (getNodesOfLayer h current nodes = [] ->
      count_leaves is_circle v = 1%nat /\ count_leaves is_filled_circle v = 1%nat).
Proof.
  intros Hv. apply renderPositions_summary in Hv.
  destruct Hv as (_ & _ & Hcircle & Hle & Hempty).
  split; [exact Hle |]. intros Hnil. split; [| exact (Hempty Hnil)].
  rewrite Hcircle, Hnil. reflexivity.
Qed.

(** X6.  When no node of the current layer is selected (the dragged node
    comes from another layer), a layer of [n] nodes gets [n + 1] circles:
    one above, one below and one between each two neighbours. *)
Theorem renderPositions_foreign_node (current : Z) (nodes : list ref)
    (layers : list Layer.t) (forbidden : bool) (h : Heap) (v : VNode) :
  renderPositions current nodes layers forbidden h = Normal v ->
  selected_of h (getNodesOfLayer h current nodes) = [] ->
  count_leaves is_circle v = (length (getNodesOfLayer h current nodes) + 1)%nat.
Proof.
  intros Hv Hnone. apply renderPositions_summary in Hv.
  destruct Hv as (_ & _ & Hcircle & _). rewrite Hcircle.
  rewrite offered_none_selected.
  - now rewrite length_sort_by_posId.
  - apply length_zero_iff_nil.
    rewrite (length_selected_of_Permutation h _ _ (sort_by_posId_Permutation h _)).
    now rewrite Hnone.
Qed.

(** X7.  When exactly one node of the current layer is selected (the dragged
    node is in its own layer), a layer of [n] nodes gets [n - 1] circles:
    none at the node's own place, that is, none next to the node. *)
Theorem renderPositions_own_layer (current : Z) (nodes : list ref)
    (layers : list Layer.t) (forbidden : bool) (h : Heap) (v : VNode) :
  renderPositions current nodes layers forbidden h = Normal v ->
  length (selected_of h (getNodesOfLayer h current nodes)) = 1%nat ->
  count_leaves is_circle v = (length (getNodesOfLayer h current nodes) - 1)%nat.
Proof.
  intros Hv Hone. apply renderPositions_summary in Hv.
  destruct Hv as (_ & _ & Hcircle & _). rewrite Hcircle.
  rewrite offered_one_selected.
  - now rewrite length_sort_by_posId.
  - now rewrite (length_selected_of_Permutation h _ _ (sort_by_posId_Permutation h _)).
Qed.

(** X8.  [renderPositions] throws nothing but a [TypeError], and it throws
    exactly when the layer it needs is missing: the current layer holds
    nodes but is none of the layers, or it holds no node and there is no
    layer at all. *)
Theorem renderPositions_throws (current : Z) (nodes : list ref)
    (layers : list Layer.t) (forbidden : bool) (h : Heap) :
  (forall e, renderPositions current nodes layers forbidden h = Throw e ->
             e = TypeError)
  /\ (renderPositions current nodes layers forbidden h = Throw TypeError
      <-> (getNodesOfLayer h current nodes <> [] /\ js_index layers current = None)
          \/ (getNodesOfLayer h current nodes = [] /\ layers = [])).
Proof.
  unfold renderPositions.
  pose proof (length_sort_by_posId h (getNodesOfLayer h current nodes)) as Hlen.
  destruct (sort_by_posId h (getNodesOfLayer h current nodes)) as [| first rest].
  - assert (Hnil : getNodesOfLayer h current nodes = []).
    { apply length_zero_iff_nil. now rewrite <- Hlen. }
    destruct (last layers) as [lastL |] eqn:Hlast.
    + split; [discriminate |]. split; [discriminate |].
      intros [[Hne _] | [_ Hlayers]]; [contradiction |].
      rewrite Hlayers in Hlast. discriminate.
    + apply last_None in Hlast. split; [congruence |]. split; auto.
  - assert (Hne : getNodesOfLayer h current nodes <> []).
    { intros Hnil. rewrite Hnil in Hlen. discriminate. }
    destruct (js_index layers current) as [layer |].
    + destruct (positions_between _ _ _ _ _ _ _).
      split; [discriminate |]. split; [discriminate |].
      intros [[_ Hnone] | [Hnil _]]; [discriminate | contradiction].
    + split; [congruence |]. split; auto.
Qed.

(** X9.  The target of the position computation is the last node flagged
    [selected]; without a selected node it is the first node, and it is
    [undefined] only for an empty node list. *)
Theorem selectedTarget_last_selected (h : Heap) (nodes : list ref) :
  (selectedTarget h nodes = None <-> nodes = [])
  /\ (forall (before after : list ref) (n : ref),
        nodes = before ++ n :: after ->
        KNode.selected (h n) = true ->
        selected_of h after = [] ->
        selectedTarget h nodes = Some n)
  /\ (selected_of h nodes = [] -> selectedTarget h nodes = head nodes).
Proof.
  unfold selectedTarget. split; [| split].
  - destruct nodes as [| first rest]; [simpl; tauto |].
    split; [| discriminate]. cbn [head fold_left]. generalize first at 2.
    intros acc.
    assert (Hsome : forall l (t : ref),
               fold_left (fun target node =>
                            if KNode.selected (h node) then Some node else target)
                         l (Some t) <> None).
    { induction l as [| n l IH]; intros t; simpl; [discriminate |].
      destruct (KNode.selected (h n)); apply IH. }
    intros Hnone. exfalso.
    destruct (KNode.selected (h first)); exact (Hsome _ _ Hnone).
  - intros before after n -> Hsel Hafter.
    rewrite fold_left_app. cbn [fold_left]. rewrite Hsel.
    now apply fold_target_unselected.
  - intros Hnone. now apply fold_target_unselected.
Qed.

(** X10.  Sorting the nodes of a layer keeps the nodes, puts them in
    ascending order of [posId], and leaves a layer that is already in that
    order as it is (nodes with equal [posId] are not swapped). *)
Theorem layerNodes_sorted_by_posId (h : Heap) (layerNodes : list ref) :
  sort_by_posId h layerNodes ≡ₚ layerNodes
  /\ StronglySorted (fun n m => KNode.posId (h n) <= KNode.posId (h m))
                    (sort_by_posId h layerNodes)
  /\ (StronglySorted (fun n m => KNode.posId (h n) <= KNode.posId (h m)) layerNodes ->
      sort_by_posId h layerNodes = layerNodes).
Proof.
  split; [apply sort_by_posId_Permutation |].
  split; [apply sort_by_posId_sorted | apply sort_by_posId_sorted_id].
Qed.

(** Every shape is a rectangle, a line or a circle. *)
Lemma shapes_count_leaves :
  forall v : VNode,
    shapes v = (count_leaves is_rect v + count_leaves is_line v
                + count_leaves is_circle v)%nat.
Proof.
  fix IH 1. intros [children | | | | | |]; try reflexivity.
  simpl. induction children as [| child rest IHrest]; [reflexivity |].
  rewrite (IH child), IHrest. lia.
Qed.

Lemma free_pairs_le (h : Heap) (l : list ref) :
  (free_pairs h l <= Nat.pred (length l))%nat.
Proof.
  induction l as [| a rest IH]; [simpl; lia |].
  destruct rest as [| b rest']; [simpl; lia |].
  change (free_pairs h (a :: b :: rest'))
    with ((if negb (KNode.selected (h a)) && negb (KNode.selected (h b))
           then 1 else 0) + free_pairs h (b :: rest'))%nat.
  simpl length in *. simpl Nat.pred in *.
  destruct (negb (KNode.selected (h a)) && negb (KNode.selected (h b))); lia.
Qed.

Lemma offered_le (h : Heap) (l : list ref) : (offered h l <= length l + 1)%nat.
Proof.
  destruct l as [| first rest]; [simpl; lia |].
  unfold offered. pose proof (free_pairs_le h (first :: rest)) as Hpairs.
  simpl length in *. simpl Nat.pred in *.
  destruct (KNode.selected (h first)),
           (KNode.selected (h (default first (last (first :: rest))))); lia.
Qed.

(** How [renderPositions] ends: it returns when the layer it reads exists,
    and throws a [TypeError] when it does not. *)
Lemma renderPositions_outcome (current : Z) (nodes : list ref)
    (layers : list Layer.t) (forbidden : bool) (h : Heap) :
  match renderPositions current nodes layers forbidden h with
  | Normal _ =>
      (getNodesOfLayer h current nodes <> [] -> is_Some (js_index layers current))
      /\ (getNodesOfLayer h current nodes = [] -> layers <> [])
  | Throw e =>
      e = TypeError
      /\ ((getNodesOfLayer h current nodes <> [] /\ js_index layers current = None)
          \/ (getNodesOfLayer h current nodes = [] /\ layers = []))
  end.
Proof.
  unfold renderPositions.
  pose proof (length_sort_by_posId h (getNodesOfLayer h current nodes)) as Hlen.
  destruct (sort_by_posId h (getNodesOfLayer h current nodes)) as [| first rest].
  - assert (Hnil : getNodesOfLayer h current nodes = []).
    { apply length_zero_iff_nil. now rewrite <- Hlen. }
    destruct (last layers) as [lastL |] eqn:Hlast.
    + split; [intros Hne; contradiction |].
      intros _ Hlayers. rewrite Hlayers in Hlast. discriminate.
    + apply last_None in Hlast. auto.
  - assert (Hne : getNodesOfLayer h current nodes <> []).
    { intros Hnil. rewrite Hnil in Hlen. discriminate. }
    destruct (js_index layers current) as [layer |].
    + destruct (positions_between _ _ _ _ _ _ _).
      split; [eauto | intros Hnil; contradiction].
    + auto.
Qed.

(** C7, as the code has it.  [renderInteractiveLayout] is a total function
    defined by structural recursion on the layer list and on the node lists,
    so it terminates on every root, each loop running once per element of
    the list it walks.  It returns a virtual-DOM node exactly when the graph
    is drawable: no node is selected, or there is at least one layer and,
    unless only the layer constraint will be set, the current layer holds no
    node or is one of the layers.  The node returned is the group around
    what [renderLayer] returned, which holds one mark per layer (and one for
    the empty last layer when shown), one circle per place the current layer
    offers, and so at most one shape per layer, one per node of the current
    layer, and two more.  When the graph is not drawable
    [renderInteractiveLayout] throws a [TypeError]. *)
Theorem renderInteractiveLayout_returns (root : ref) (h : Heap) :
  let nodes := filterKNodes h (KNode.children (h root)) in
  let layers := getLayers h nodes in
  let h' := snd (renderLayer nodes root h) in
  let drawable :=
    forall selNode : ref,
      getSelectedNode h nodes = Some selNode ->
      let current := getLayerOfNode h selNode nodes layers in
      let onlyLC := shouldOnlyLCBeSet h selNode layers
                    && negb (KNode.layerId (h selNode) =? current) in
      layers <> []
      /\ (onlyLC = false ->
          getNodesOfLayer h' current nodes <> [] ->
          is_Some (js_index layers current)) in
  (drawable
   /\ exists layer : VNode,
       renderLayer nodes root h = (Normal layer, h')
       /\ renderInteractiveLayout root h = (Normal (g [layer]), h')
       /\ match getSelectedNode h nodes with
          | None => layer = g []
          | Some selNode =>
              let current := getLayerOfNode h selNode nodes layers in
              let onlyLC := shouldOnlyLCBeSet h selNode layers
                            && negb (KNode.layerId (h selNode) =? current) in
              let emptyLastLayerShown :=
                match getNodesOfLayer h (Z.of_nat (length layers) - 1) nodes with
                | [only] => negb (KNode.selected (h only))
                | _ => true
                end in
              let layerNodes := getNodesOfLayer h' current nodes in
              (count_leaves is_rect layer + count_leaves is_line layer
               = length layers + (if emptyLastLayerShown then 1 else 0))%nat
              /\ count_leaves is_circle layer
                 = (if onlyLC then 0%nat
                    else offered h' (sort_by_posId h' layerNodes))
              /\ (shapes (g [layer]) <= length layers + length layerNodes + 2)%nat
          end)
  \/ (~ drawable /\ renderInteractiveLayout root h = (Throw TypeError, h')).
Proof.
  cbv zeta. unfold renderInteractiveLayout.
  set (nodes := filterKNodes h (KNode.children (h root))).
  destruct (getSelectedNode h nodes) as [selNode |] eqn:Hsel.
  2: { left. assert (Hrun : renderLayer nodes root h = (Normal (g []), h)).
       { unfold renderLayer. now rewrite Hsel. }
       rewrite Hrun. cbn [snd]. split; [intros selNode; discriminate |].
       exists (g []). auto. }
  destruct (getLayers h nodes) as [| layer0 rest] eqn:Hlayers.
  { right. assert (Hrun : renderLayer nodes root h = (Throw TypeError, h)).
    { unfold renderLayer. now rewrite Hsel, Hlayers. }
    rewrite Hrun. cbn [snd]. split; [| reflexivity].
    intros Hdrawable. now destruct (Hdrawable selNode eq_refl) as [Hne _]. }
  rewrite <- Hlayers.
  assert (Hne : getLayers h nodes <> []) by (rewrite Hlayers; discriminate).
  destruct (renderLayer_marks nodes root selNode h Hsel Hne)
    as (result & h2 & _ & Hmarks & Hcircle & Hrun).
  cbv zeta in Hmarks, Hrun. rewrite Hrun. clear Hrun.
  set (current := getLayerOfNode h selNode nodes (getLayers h nodes)) in *.
  destruct (shouldOnlyLCBeSet h selNode (getLayers h nodes)
            && negb (KNode.layerId (h selNode) =? current)) eqn:HonlyLC; cbn [negb].
  - left. cbn [snd]. split.
    + intros selNode' Hsel'. inversion Hsel'; subst selNode'.
      split; [exact Hne |]. fold current. rewrite HonlyLC. discriminate.
    + exists result. repeat split; try assumption.
      rewrite shapes_count_leaves. simpl count_leaves.
      destruct (match getNodesOfLayer h _ nodes with
                | [only] => negb (KNode.selected (h only))
                | _ => true
                end); lia.
  - pose proof (renderPositions_outcome current nodes (getLayers h nodes)
                  (isLayerForbidden h selNode current) h2) as Hout.
    destruct (renderPositions current nodes (getLayers h nodes)
                (isLayerForbidden h selNode current) h2)
      as [positions | e] eqn:Hpos; cbn [snd].
    + left. destruct Hout as [Hcur _]. split.
      * intros selNode' Hsel'. inversion Hsel'; subst selNode'.
        split; [exact Hne | intros _; exact Hcur].
      * exists (g [result; positions]).
        apply renderPositions_summary in Hpos.
        destruct Hpos as (Hprect & Hpline & Hpcircle & _).
        pose proof (offered_le h2 (sort_by_posId h2 (getNodesOfLayer h2 current nodes)))
          as Hoffered.
        rewrite length_sort_by_posId in Hoffered.
        repeat split.
        -- simpl count_leaves. lia.
        -- simpl count_leaves. lia.
        -- rewrite shapes_count_leaves. simpl count_leaves.
           destruct (match getNodesOfLayer h _ nodes with
                     | [only] => negb (KNode.selected (h only))
                     | _ => true
                     end); lia.
    + right. destruct Hout as [-> [[Hnodes Hnone] | [_ Hnil]]]; [| contradiction].
      split; [| reflexivity].
      intros Hdrawable. destruct (Hdrawable selNode eq_refl) as [_ Hcur].
      fold current in Hcur.
      destruct (Hcur HonlyLC Hnodes) as [layer Hlayer]. congruence.
Qed.

End Render.

(** *** The theorems at work on the sample graph *)

Lemma renderLayer_without_selection_idle :
  Sample.getSelectedNode Sample.idle [1; 2; 3]%nat = None
  /\ renderLayer Sample.getSelectedNode (Sample.getLayers Sample.layers)
       Sample.getLayerOfNode Sample.isLayerForbidden Sample.shouldOnlyLCBeSet
       Sample.getNodesOfLayer Sample.getPosInLayer [1; 2; 3]%nat 0%nat Sample.idle
     = (Normal (g []), Sample.idle).
Proof.
  split; [reflexivity |].
  apply (renderLayer_without_selection
           Sample.getSelectedNode (Sample.getLayers Sample.layers)
           Sample.getLayerOfNode Sample.isLayerForbidden Sample.shouldOnlyLCBeSet
           Sample.getNodesOfLayer Sample.getPosInLayer [1; 2; 3]%nat 0%nat Sample.idle).
  reflexivity.
Defined.

Lemma renderLayer_hierarchical_bounds_dragging :
  let h' := snd (renderLayer Sample.getSelectedNode (Sample.getLayers Sample.layers)
                   Sample.getLayerOfNode Sample.isLayerForbidden
                   Sample.shouldOnlyLCBeSet Sample.getNodesOfLayer
                   Sample.getPosInLayer [1; 2; 3]%nat 0%nat Sample.dragging) in
  Sample.getSelectedNode Sample.dragging [1; 2; 3]%nat = Some 2%nat
  /\ h' 0%nat = KNode.mk [1; 2; 3]%nat false 0 0 (-1) (-1) 80 80
                         (Dimension.mk 100 80) (Point.mk 0 0)
  /\ (forall r : ref, r <> 0%nat -> h' r = Sample.dragging r).
Proof.
  split; [reflexivity |].
  destruct (renderLayer_hierarchical_bounds
              Sample.getSelectedNode (Sample.getLayers Sample.layers)
              Sample.getLayerOfNode Sample.isLayerForbidden Sample.shouldOnlyLCBeSet
              Sample.getNodesOfLayer Sample.getPosInLayer [1; 2; 3]%nat 0%nat 2%nat
              Sample.dragging (Layer.mk 0 20 10 0 80) (Layer.mk 30 50 40 0 80)
              eq_refl eq_refl eq_refl) as (Hroot & Hothers & _).
  split; [exact Hroot | exact Hothers].
Defined.

(** C7, as it is worded, fails: with node [2] selected and an empty list of
    layers, [renderInteractiveLayout] returns no node; it throws a
    [TypeError]. *)
Lemma renderInteractiveLayout_throws_TypeError :
  Sample.getSelectedNode Sample.dragging
    (Sample.filterKNodes Sample.dragging (KNode.children (Sample.dragging 0%nat)))
  = Some 2%nat
  /\ Sample.getLayers [] Sample.dragging [1; 2; 3]%nat = []
  /\ renderInteractiveLayout Sample.filterKNodes Sample.getSelectedNode
       (Sample.getLayers []) Sample.getLayerOfNode Sample.isLayerForbidden
       Sample.shouldOnlyLCBeSet Sample.getNodesOfLayer Sample.getPosInLayer
       0%nat Sample.dragging
     = (Throw TypeError, Sample.dragging).
Proof. repeat split. Qed.

(** The overlay drawn while node [2] is dragged: a rectangle for its layer,
    a line for the second layer and one for the empty last layer, and a
    circle above node [1]. *)
Example renderInteractiveLayout_while_dragging :
  fst (renderInteractiveLayout Sample.filterKNodes Sample.getSelectedNode
         (Sample.getLayers Sample.layers) Sample.getLayerOfNode
         Sample.isLayerForbidden Sample.shouldOnlyLCBeSet Sample.getNodesOfLayer
         Sample.getPosInLayer 0%nat Sample.dragging)
  = Normal
      (g [g [g [g [g [g []; createRect 0 0 20 80 false false];
                   createVerticalLine 40 0 80];
                createVerticalLine 60 0 80];
             g [g []; createCircle false 10 5 false]]]).
Proof. reflexivity. Qed.

(** While node [2] is dragged within the first layer, that layer alone is
    highlighted. *)
Lemma renderLayer_highlights_one_layer_dragging :
  exists (v : VNode) (h' : Heap),
    renderLayer Sample.getSelectedNode (Sample.getLayers Sample.layers)
      Sample.getLayerOfNode Sample.isLayerForbidden Sample.shouldOnlyLCBeSet
      Sample.getNodesOfLayer Sample.getPosInLayer [1; 2; 3]%nat 0%nat Sample.dragging
    = (Normal v, h')
    /\ count_leaves is_rect v = 1%nat.
Proof.
  eexists _, _. split; [reflexivity |].
  refine (proj1 (proj2 (renderLayer_highlights_one_layer
                 Sample.getSelectedNode (Sample.getLayers Sample.layers)
                 Sample.getLayerOfNode Sample.isLayerForbidden
                 Sample.shouldOnlyLCBeSet Sample.getNodesOfLayer
                 Sample.getPosInLayer [1; 2; 3]%nat 0%nat 2%nat Sample.dragging
                 _ _ eq_refl eq_refl)) _).
  cbn. lia.
Defined.

(** Two layers and the empty last layer: three marks. *)
Lemma renderLayer_marks_every_layer_dragging :
  exists (v : VNode) (h' : Heap),
    renderLayer Sample.getSelectedNode (Sample.getLayers Sample.layers)
      Sample.getLayerOfNode Sample.isLayerForbidden Sample.shouldOnlyLCBeSet
      Sample.getNodesOfLayer Sample.getPosInLayer [1; 2; 3]%nat 0%nat Sample.dragging
    = (Normal v, h')
    /\ (count_leaves is_rect v + count_leaves is_line v = 2 + 1)%nat.
Proof.
  eexists _, _. split; [reflexivity |].
  exact (renderLayer_marks_every_layer
           Sample.getSelectedNode (Sample.getLayers Sample.layers)
                 Sample.getLayerOfNode Sample.isLayerForbidden
                 Sample.shouldOnlyLCBeSet Sample.getNodesOfLayer
                 Sample.getPosInLayer [1; 2; 3]%nat 0%nat 2%nat Sample.dragging
           _ _ eq_refl eq_refl).
Defined.

(** Node [2] dragged into the second layer, with only the layer constraint to
    be set: no circles. *)
Lemma renderLayer_layer_constraint_only_dragging :
  exists (v : VNode) (h' : Heap),
    renderLayer Sample.getSelectedNode (Sample.getLayers Sample.layers)
      (fun _ _ _ _ => 1) Sample.isLayerForbidden (fun _ _ _ => true)
      Sample.getNodesOfLayer Sample.getPosInLayer [1; 2; 3]%nat 0%nat Sample.dragging
    = (Normal v, h')
    /\ count_leaves is_circle v = 0%nat.
Proof.
  eexists _, _. split; [reflexivity |].
  apply (renderLayer_layer_constraint_only
           Sample.getSelectedNode (Sample.getLayers Sample.layers)
           (fun _ _ _ _ => 1) Sample.isLayerForbidden (fun _ _ _ => true)
           Sample.getNodesOfLayer Sample.getPosInLayer [1; 2; 3]%nat 0%nat 2%nat
           Sample.dragging _ _ eq_refl eq_refl eq_refl).
  cbn. lia.
Defined.

(** The sample graph with no layers computed. *)
Lemma renderInteractiveLayout_without_layers_dragging :
  renderInteractiveLayout Sample.filterKNodes Sample.getSelectedNode
    (Sample.getLayers []) Sample.getLayerOfNode Sample.isLayerForbidden
    Sample.shouldOnlyLCBeSet Sample.getNodesOfLayer Sample.getPosInLayer
    0%nat Sample.dragging
  = (Throw TypeError, Sample.dragging).
Proof.
  exact (renderInteractiveLayout_without_layers
           Sample.filterKNodes Sample.getSelectedNode (Sample.getLayers [])
           Sample.getLayerOfNode Sample.isLayerForbidden Sample.shouldOnlyLCBeSet
           Sample.getNodesOfLayer Sample.getPosInLayer 0%nat 2%nat Sample.dragging
           eq_refl eq_refl).
Defined.

(** Node [2] over the empty last layer (index 2): one filled circle. *)
Lemma renderPositions_one_filled_circle_dragging :
  exists v : VNode,
    renderPositions Sample.getNodesOfLayer Sample.getPosInLayer 2
      [1; 2; 3]%nat Sample.layers false Sample.dragging = Normal v
    /\ count_leaves is_circle v = 1%nat
    /\ count_leaves is_filled_circle v = 1%nat.
Proof.
  eexists. split; [reflexivity |].
  exact (proj2 (renderPositions_one_filled_circle
                  Sample.getNodesOfLayer Sample.getPosInLayer 2
                  [1; 2; 3]%nat Sample.layers false Sample.dragging _ eq_refl)
               eq_refl).
Defined.

(** Node [2] over the second layer, which holds node [3] alone: two circles. *)
Lemma renderPositions_foreign_node_dragging :
  exists v : VNode,
    renderPositions Sample.getNodesOfLayer Sample.getPosInLayer 1
      [1; 2; 3]%nat Sample.layers false Sample.dragging = Normal v
    /\ count_leaves is_circle v = 2%nat.
Proof.
  eexists. split; [reflexivity |].
  exact (renderPositions_foreign_node
           Sample.getNodesOfLayer Sample.getPosInLayer 1
           [1; 2; 3]%nat Sample.layers false Sample.dragging _ eq_refl eq_refl).
Defined.

(** Node [2] over its own layer, which it shares with node [1]: one circle. *)
Lemma renderPositions_own_layer_dragging :
  exists v : VNode,
    renderPositions Sample.getNodesOfLayer Sample.getPosInLayer 0
      [1; 2; 3]%nat Sample.layers false Sample.dragging = Normal v
    /\ count_leaves is_circle v = 1%nat.
Proof.
  eexists. split; [reflexivity |].
  exact (renderPositions_own_layer
           Sample.getNodesOfLayer Sample.getPosInLayer 0
           [1; 2; 3]%nat Sample.layers false Sample.dragging _ eq_refl eq_refl).
Defined.

(** [layerCons(x, y)]: the lock with a horizontal arrow.  The blank between
    [<g>] and the first child is a JSX text child. *)
Definition layerCons (x y : float) : VNode :=
  g [text " "; lock x y; arrow (x - 2.15)%float (y + 2.6)%float false].

(** [posCons(x, y)]: the lock with a vertical arrow. *)
Definition posCons (x y : float) : VNode :=
  g [text " "; lock x y; arrow (x + 0.1)%float (y + 2.5)%float true].

Definition renderConstraints (node : KNode.t) : VNode :=
  let result := g [] in
  let x := if negb (KNode.hierWidth node =? 0)%float
           then KNode.hierWidth node else Dimension.width (KNode.size node) in
  let y := 0%float in
  if negb (KNode.layerCons node =? -1) && negb (KNode.posCons node =? -1) then
    g [result; lock x y]
  else if negb (KNode.layerCons node =? -1) then
    g [result; layerCons (x + 2)%float (y - 2)%float]
  else if negb (KNode.posCons node =? -1) then
    g [result; posCons (x + 2)%float (y - 2)%float]
  else result.

(** The x coordinate at which an icon is drawn: the one handed to its lock. *)
Fixpoint icon_x (v : VNode) : option float :=
  match v with
  | lock x _ => Some x
  | g children =>
      (fix first (l : list VNode) : option float :=
         match l with
         | [] => None
         | c :: l' =>
             match icon_x c with
             | Some x => Some x
             | None => first l'
             end
         end) children
  | _ => None
  end.

(** *** The claims about [renderConstraints] *)

(** C8, as the code has it.  [renderConstraints] splits on the two
    constraints: both set, a plain lock at [(x, 0)]; only the layer
    constraint, the lock with the horizontal arrow at [(x + 2, 0 - 2)]; only
    the position constraint, the lock with the vertical arrow at
    [(x + 2, 0 - 2)]; none, the empty group.  Here [x] is [node.hierWidth]
    when that is not zero and [node.size.width] otherwise.  So the plain lock
    is drawn at [x] and the two arrow icons at [x + 2]. *)
Theorem renderConstraints_cases (node : KNode.t) :
  let x := if (KNode.hierWidth node =? 0)%float
           then Dimension.width (KNode.size node) else KNode.hierWidth node in
  let icon := renderConstraints node in
  (KNode.layerCons node <> -1 /\ KNode.posCons node <> -1 ->
     icon = g [g []; lock x 0] /\ icon_x icon = Some x)
  /\ (KNode.layerCons node <> -1 /\ KNode.posCons node = -1 ->
       icon = g [g []; layerCons (x + 2)%float (0 - 2)%float]
       /\ icon_x icon = Some (x + 2)%float)
  /\ (KNode.layerCons node = -1 /\ KNode.posCons node <> -1 ->
       icon = g [g []; posCons (x + 2)%float (0 - 2)%float]
       /\ icon_x icon = Some (x + 2)%float)
  /\ (KNode.layerCons node = -1 /\ KNode.posCons node = -1 ->
       icon = g [] /\ icon_x icon = None).
Proof.
  cbv zeta. unfold renderConstraints.
  destruct (KNode.hierWidth node =? 0)%float; cbn [negb];
    destruct (Z.eqb_spec (KNode.layerCons node) (-1)) as [Hl | Hl];
    destruct (Z.eqb_spec (KNode.posCons node) (-1)) as [Hp | Hp];
    cbn [negb andb];
    repeat match goal with |- _ /\ _ => split end;
    intros [Hl' Hp']; try congruence; split; reflexivity.
Qed.

(** C8, as it is worded, fails: for a node that has only a layer constraint
    and [hierWidth = 5], the icon is drawn at [x = 7], not at [hierWidth]. *)
Lemma renderConstraints_arrow_icon_is_shifted :
  KNode.layerCons Sample.layerConstrained <> -1
  /\ KNode.posCons Sample.layerConstrained = -1
  /\ KNode.hierWidth Sample.layerConstrained = 5%float
  /\ icon_x (renderConstraints Sample.layerConstrained) = Some 7%float
  /\ icon_x (renderConstraints Sample.layerConstrained)
     <> Some (KNode.hierWidth Sample.layerConstrained).
Proof.
  repeat split; try reflexivity.
  - discriminate.
  - intros Heq.
    apply (f_equal (fun o => match o with
                             | Some x => (x =? 5)%float
                             | None => false
                             end)) in Heq.
    vm_compute in Heq. discriminate.
Qed.

(** *** The layout and the constraint icon together *)

(** The sample graph with both constraints set on the root. *)
Definition constrained_dragging : Heap :=
  store Sample.dragging 0%nat
        (KNode.mk [1; 2; 3]%nat false 0 0 0 0 0 0 (Dimension.mk 100 80) (Point.mk 0 0)).

Section LayoutThenConstraints.

Variable getSelectedNode : Heap -> list ref -> option ref.
Variable getLayers : Heap -> list ref -> list Layer.t.
Variable getLayerOfNode : Heap -> ref -> list ref -> list Layer.t -> Z.
Variable isLayerForbidden : Heap -> ref -> Z -> bool.
Variable shouldOnlyLCBeSet : Heap -> ref -> list Layer.t -> bool.
Variable getNodesOfLayer : Heap -> Z -> list ref -> list ref.
Variable getPosInLayer : Heap -> list ref -> option ref -> Z.

(** X11.  After [renderLayer] has drawn the layers of a root, the constraint
    icon of that root is placed by the width of the overlay: at
    [hierWidth = rightX - layers[0].leftX + 10] for the plain lock and two
    further right for an arrow icon, and only if that width is zero by the
    root's own [size.width]. *)
Theorem renderConstraints_after_layout (nodes : list ref) (root selNode : ref)
    (h : Heap) (layer0 lastL : Layer.t) :
  getSelectedNode h nodes = Some selNode ->
  head (getLayers h nodes) = Some layer0 ->
  last (getLayers h nodes) = Some lastL ->
  let rightX :=
    if match getNodesOfLayer h (Z.of_nat (length (getLayers h nodes)) - 1) nodes with
       | [only] => negb (KNode.selected (h only))
       | _ => true
       end
    then (Layer.rightX lastL + Layer.rightX lastL - Layer.leftX lastL)%float
    else Layer.rightX lastL in
  let overlayWidth := (rightX - Layer.leftX layer0 + 10)%float in
  let x := if (overlayWidth =? 0)%float
           then Dimension.width (KNode.size (h root)) else overlayWidth in
  let root' :=
    snd (renderLayer getSelectedNode getLayers getLayerOfNode isLayerForbidden
           shouldOnlyLCBeSet getNodesOfLayer getPosInLayer nodes root h) root in
  icon_x (renderConstraints root') =
    if KNode.layerCons (h root) =? -1 then
      if KNode.posCons (h root) =? -1 then None else Some (x + 2)%float
    else
      if KNode.posCons (h root) =? -1 then Some (x + 2)%float else Some x.
Proof.
  intros Hsel Hhead Hlast. cbv zeta.
  rewrite (renderLayer_root_after getSelectedNode getLayers getLayerOfNode
             isLayerForbidden shouldOnlyLCBeSet getNodesOfLayer getPosInLayer
             nodes root selNode h layer0 lastL Hsel Hhead Hlast).
  unfold renderConstraints. cbn [KNode.set_hierWidth KNode.set_hierHeight
    KNode.hierWidth KNode.size KNode.layerCons KNode.posCons].
  destruct (_ =? 0)%float;
    destruct (KNode.layerCons (h root) =? -1);
    destruct (KNode.posCons (h root) =? -1); reflexivity.
Qed.

End LayoutThenConstraints.

(** On the sample graph the overlay is 80 wide, and so the lock of the root
    is drawn at 80. *)
Lemma renderConstraints_after_layout_dragging :
  icon_x (renderConstraints
            (snd (renderLayer Sample.getSelectedNode (Sample.getLayers Sample.layers)
                    Sample.getLayerOfNode Sample.isLayerForbidden
                    Sample.shouldOnlyLCBeSet Sample.getNodesOfLayer
                    Sample.getPosInLayer [1; 2; 3]%nat 0%nat constrained_dragging)
                 0%nat))
  = Some 80%float.
Proof.
  exact (renderConstraints_after_layout
           Sample.getSelectedNode (Sample.getLayers Sample.layers)
           Sample.getLayerOfNode Sample.isLayerForbidden Sample.shouldOnlyLCBeSet
           Sample.getNodesOfLayer Sample.getPosInLayer [1; 2; 3]%nat 0%nat 2%nat
           constrained_dragging (Layer.mk 0 20 10 0 80) (Layer.mk 30 50 40 0 80)
           eq_refl eq_refl eq_refl).
Defined.

End Interactive.

(** ** The Theia diagram manager ([keith-diagram-manager.ts]) *)

Module KeithDiagramManager.

(** A promise, seen through the way it settles. *)
Inductive Promise (A : Type) : Type :=
| Fulfilled (value : A)
| Rejected (e : JsError)
| Pending.

Arguments Fulfilled {A} value.
Arguments Rejected {A} e.
Arguments Pending {A}.

Definition DIAGRAM_TYPE : string := "keith-diagram".

Section Manager.

(** What Theia, sprotty-theia and the language give: values of type [any],
    URIs, dependency-injection containers, connectors, and the widgets of
    other classes.  A string literal is a value ([js_string]). *)
Variable any URI Container Connector DiagramConfiguration OtherWidget : Type.
Variable js_string : string -> any.

(** [DiagramWidgetOptions.is(options)], [options.diagramType] and
    [JSON.stringify(options)].  Each call returns or throws: the type guard
    reads properties of [options], which throws for [undefined] and [null],
    and [JSON.stringify] throws for a value that has no serialization (a
    circular structure, a BigInt).  A serialization [None] stands for
    [undefined]. *)
Variable DiagramWidgetOptions_is : any -> Completion bool.
Variable diagramType_of : any -> string.
Variable JSON_stringify : any -> Completion (option string).

(** [this.diagramConfigurationRegistry.get(type)], which returns a
    configuration or [undefined] ([None]) or throws, and
    [config.createContainer(name)]. *)
Variable diagramConfigurationRegistry_get :
  string -> Completion (option DiagramConfiguration).
Variable createContainer : DiagramConfiguration -> string -> Completion Container.

(** A widget is an instance of [KeithDiagramWidget], recorded by the
    arguments of its constructor, or a widget of another class. *)
Inductive Widget : Type :=
| NewKeithDiagramWidget (options : any) (clientId : string)
                        (diContainer : Container) (connector : Connector)
| Other (w : OtherWidget).

(** [widget instanceof KeithDiagramWidget] *)
Definition instanceof_KeithDiagramWidget (widget : Widget) : bool :=
  match widget with
  | NewKeithDiagramWidget _ _ _ _ => true
  | Other _ => false
  end.

(** JavaScript objects used as option bags: property name to value. *)
Abbreviation Options := (gmap string any).

(** The base class: [super.open(uri, options)] and
    [super.createWidgetOptions(uri, options)]. *)
Variable super_open : URI -> Options -> Promise Widget.
Variable super_createWidgetOptions : URI -> option Options -> Options.

(** The manager object: the fields the methods read. *)
Record t : Type := mk {
  id : string;
  _diagramConnector : Connector;
  (** [this.widgetManager.getWidgets(id)] *)
  getWidgets : string -> list Widget
}.

Record EditorWidget : Type := mkEditorWidget {
  (** [editorWidget.getResourceUri()]: a [URI] or [undefined] *)
  getResourceUri : option URI
}.

(** What a method does to its surroundings, in order. *)
Inductive Effect : Type :=
| CallSuperOpen (uri : URI) (options : Options)   (* [super.open(uri, options)] *)
| Fire (uri : URI)             (* [this.onDiagramOpenedEmitter.fire(uri)] *)
| ReInitialize (widget : Widget) (uri : URI).     (* [widget.reInitialize(uri)] *)

(** [s + v] for a string [s] and a value [v] that is a string or [undefined]. *)
Definition concat_string_or_undefined (s : string) (v : option string) : string :=
  s ++ default "undefined" v.

Definition diagramType (this : t) : string := DIAGRAM_TYPE.

Definition diagramConnector (this : t) : Connector := _diagramConnector this.

Definition createClientId (this : t) : string := diagramType this.

(** [open(uri, input)]: the promise returned, and the effects. *)
Definition open (this : t) (uri : URI) (input : option Options)
  : Promise Widget * list Effect :=
  let options := <["mode" := js_string "reveal"]> (default ∅ input) in
  let widgetPromise := super_open uri options in
  (widgetPromise,
   CallSuperOpen uri options ::
   match widgetPromise with
   | Fulfilled _ => [Fire uri]
   | _ => []
   end).

Definition drawDiagram (this : t) (uri : URI) : list Effect :=
  let '(diagramWidgetPromise, effects) := open this uri None in
  effects ++
  match diagramWidgetPromise with
  | Fulfilled widget =>
      if instanceof_KeithDiagramWidget widget then [ReInitialize widget uri] else []
  | _ => []
  end.

Definition onCurrentEditorChanged (this : t) (editorWidget : option EditorWidget)
  : list Effect :=
  let diagramWidget := last (getWidgets this (id this)) in
  match diagramWidget, editorWidget with
  | Some _, Some editorWidget =>
      let uri := getResourceUri editorWidget in
      match uri with
      | Some uri => drawDiagram this uri
      | None => []
      end
  | _, _ => []
  end.

Definition createWidgetOptions (this : t) (uri : URI) (options : option Options)
  : Options :=
  <["label" := js_string "Diagram"]> (super_createWidgetOptions uri options).

(** [createWidget] is [async]: its completion settles the promise it returns,
    a throw being a rejection.  Whatever a call made on the way throws is
    thrown on, and [config.createContainer] on an [undefined] configuration is
    a [TypeError]. *)
Definition createWidget (this : t) (options : any) : Completion Widget :=
  match DiagramWidgetOptions_is options with
  | Throw e => Throw e
  | Normal true =>
      let clientId := createClientId this in
      match diagramConfigurationRegistry_get (diagramType_of options) with
      | Throw e => Throw e
      | Normal None => Throw TypeError
      | Normal (Some config) =>
          match createContainer config (clientId ++ "_sprotty") with
          | Throw e => Throw e
          | Normal diContainer =>
              let diagramWidget :=
                NewKeithDiagramWidget options clientId diContainer
                                      (diagramConnector this) in
              Normal diagramWidget
          end
      end
  | Normal false =>
      match JSON_stringify options with
      | Throw e => Throw e
      | Normal serialized =>
          Throw (Error (concat_string_or_undefined
                          "DiagramWidgetFactory needs DiagramWidgetOptions but got "
                          serialized))
      end
  end.

(** *** The claims about the manager *)

(** C1, as the code has it.  When [DiagramWidgetOptions.is(options)] returns
    false and [JSON.stringify(options)] returns, [createWidget] throws an
    [Error] whose message is the fixed prefix followed by that serialization
    (the text [undefined] when there is none).  When the guard returns true,
    the registry has a configuration for the diagram type and its
    [createContainer] returns, [createWidget] returns a newly constructed
    [KeithDiagramWidget] (built from [options], the client id
    [keith-diagram], the container [keith-diagram_sprotty] and the manager's
    connector) and does not throw.  In every other case a call on the way
    threw, or the configuration is [undefined], and [createWidget] throws
    that error, respectively a [TypeError]; it never returns anything but
    that widget and never throws the formatted [Error] for options that
    satisfy the guard. *)
Theorem createWidget_checks_options (this : t) (options : any) :
  let message (serialized : option string) :=
    ("DiagramWidgetFactory needs DiagramWidgetOptions but got "
     ++ default "undefined" serialized)%string in
  let widget (diContainer : Container) :=
    NewKeithDiagramWidget options "keith-diagram" diContainer
                          (_diagramConnector this) in
  (forall serialized,
     DiagramWidgetOptions_is options = Normal false ->
     JSON_stringify options = Normal serialized ->
     createWidget this options = Throw (Error (message serialized)))
  /\ (forall config diContainer,
        DiagramWidgetOptions_is options = Normal true ->
        diagramConfigurationRegistry_get (diagramType_of options)
        = Normal (Some config) ->
        createContainer config "keith-diagram_sprotty" = Normal diContainer ->
        createWidget this options = Normal (widget diContainer)
        /\ instanceof_KeithDiagramWidget (widget diContainer) = true)
  /\ (forall e,
        DiagramWidgetOptions_is options = Throw e
        \/ (DiagramWidgetOptions_is options = Normal false
            /\ JSON_stringify options = Throw e)
        \/ (DiagramWidgetOptions_is options = Normal true
            /\ diagramConfigurationRegistry_get (diagramType_of options) = Throw e)
        \/ (exists config,
              DiagramWidgetOptions_is options = Normal true
              /\ diagramConfigurationRegistry_get (diagramType_of options)
                 = Normal (Some config)
              /\ createContainer config "keith-diagram_sprotty" = Throw e) ->
        createWidget this options = Throw e)
  /\ (DiagramWidgetOptions_is options = Normal true ->
      diagramConfigurationRegistry_get (diagramType_of options) = Normal None ->
      createWidget this options = Throw TypeError)
  /\ (forall result : Widget,
        createWidget this options = Normal result ->
        DiagramWidgetOptions_is options = Normal true
        /\ exists config diContainer,
            diagramConfigurationRegistry_get (diagramType_of options)
            = Normal (Some config)
            /\ createContainer config "keith-diagram_sprotty" = Normal diContainer
            /\ result = widget diContainer).
Proof.
  cbv zeta. unfold createWidget, concat_string_or_undefined, createClientId,
    diagramType, diagramConnector, DIAGRAM_TYPE.
  change ("keith-diagram" ++ "_sprotty")%string with "keith-diagram_sprotty"%string.
  repeat match goal with |- _ /\ _ => split end.
  - intros serialized His Hjson. now rewrite His, Hjson.
  - intros config diContainer His Hget Hcontainer.
    now rewrite His, Hget, Hcontainer.
  - intros e [His | [[His Hjson] | [[His Hget] | (config & His & Hget & Hcontainer)]]].
    + now rewrite His.
    + now rewrite His, Hjson.
    + now rewrite His, Hget.
    + now rewrite His, Hget, Hcontainer.
  - intros His Hget. now rewrite His, Hget.
  - intros result.
    destruct (DiagramWidgetOptions_is options) as [[|] | e]; try discriminate.
    + destruct (diagramConfigurationRegistry_get (diagramType_of options))
        as [[config |] | e]; try discriminate.
      destruct (createContainer config "keith-diagram_sprotty")
        as [diContainer | e] eqn:Hcontainer; try discriminate.
      intros Hresult. inversion Hresult. eauto 6.
    + destruct (JSON_stringify options); discriminate.
Qed.

(** [drawDiagram] always reaches [super.open]. *)
Lemma drawDiagram_opens (this : t) (uri : URI) : drawDiagram this uri <> [].
Proof. unfold drawDiagram, open. discriminate. Qed.

(** C3.  [onCurrentEditorChanged] runs [drawDiagram(uri)] exactly when a
    diagram widget of this manager exists, the editor widget is defined, and
    its resource URI is a [URI]; in every other case it has no effect. *)
Theorem onCurrentEditorChanged_draws (this : t) (editorWidget : option EditorWidget) :
  let redraws (uri : URI) :=
    getWidgets this (id this) <> []
    /\ exists editor : EditorWidget,
        editorWidget = Some editor /\ getResourceUri editor = Some uri in
  (forall uri : URI,
     redraws uri -> onCurrentEditorChanged this editorWidget = drawDiagram this uri)
  /\ ((forall uri : URI, ~ redraws uri) -> onCurrentEditorChanged this editorWidget = [])
  /\ (onCurrentEditorChanged this editorWidget <> [] <-> exists uri : URI, redraws uri).
Proof.
  cbv zeta. unfold onCurrentEditorChanged.
  destruct (last (getWidgets this (id this))) as [diagramWidget |] eqn:Hlast.
  - assert (Hwidgets : getWidgets this (id this) <> []).
    { intros Hnil. rewrite Hnil in Hlast. discriminate. }
    destruct editorWidget as [editor |].
    + destruct (getResourceUri editor) as [uri |] eqn:Huri.
      * split; [| split].
        -- intros uri' (_ & editor' & Heditor & Huri').
           inversion Heditor; subst editor'. congruence.
        -- intros Hnone. exfalso. apply (Hnone uri). eauto.
        -- split; [intros _; exists uri; eauto | intros _; apply drawDiagram_opens].
      * split; [| split].
        -- intros uri' (_ & editor' & Heditor & Huri').
           inversion Heditor; subst editor'. congruence.
        -- reflexivity.
        -- split; [congruence |].
           intros (uri' & _ & editor' & Heditor & Huri').
           inversion Heditor; subst editor'. congruence.
    + split; [| split].
      * intros uri (_ & editor & Heditor & _). discriminate.
      * reflexivity.
      * split; [congruence | intros (uri & _ & editor & Heditor & _); discriminate].
  - apply last_None in Hlast.
    split; [| split].
    + intros uri (Hwidgets & _). contradiction.
    + destruct editorWidget; reflexivity.
    + split; [destruct editorWidget; congruence |].
      intros (uri & Hwidgets & _). contradiction.
Qed.

(** C5.  [open(uri, input)] calls [super.open] with the options of [input]
    in which [mode] is ['reveal'] and every other property is as in [input],
    returns the promise that [super.open] returned, and fires
    [onDiagramOpened] with [uri] once, when and only when that promise is
    fulfilled. *)
Theorem open_reveals (this : t) (uri : URI) (input : option Options) :
  exists options : Options,
    options !! "mode" = Some (js_string "reveal")
    /\ (forall key : string, key <> "mode" -> options !! key = default ∅ input !! key)
    /\ fst (open this uri input) = super_open uri options
    /\ snd (open this uri input) =
       CallSuperOpen uri options ::
       match super_open uri options with
       | Fulfilled _ => [Fire uri]
       | Rejected _ | Pending => []
       end.
Proof.
  exists (<["mode" := js_string "reveal"]> (default ∅ input)).
  split; [apply lookup_insert_eq |].
  split; [intros key Hkey; apply lookup_insert_ne; congruence |].
  split; reflexivity.
Qed.

(** C6.  [createWidgetOptions] returns the options of the base class with
    [label] set to ['Diagram']; every other property is as the base class
    returned it. *)
Theorem createWidgetOptions_label (this : t) (uri : URI) (options : option Options) :
  createWidgetOptions this uri options !! "label" = Some (js_string "Diagram")
  /\ (forall key : string,
        key <> "label" ->
        createWidgetOptions this uri options !! key
        = super_createWidgetOptions uri options !! key)
  /\ dom (createWidgetOptions this uri options)
     = {["label"]} ∪ dom (super_createWidgetOptions uri options).
Proof.
  unfold createWidgetOptions. split; [apply lookup_insert_eq |].
  split; [intros key Hkey; apply lookup_insert_ne; congruence |].
  apply dom_insert_L.
Qed.

(** *** Further properties of the manager *)

(** The URI an effect is about. *)
Definition effect_uri (e : Effect) : URI :=
  match e with
  | CallSuperOpen uri _ => uri
  | Fire uri => uri
  | ReInitialize _ uri => uri
  end.

Definition is_CallSuperOpen (e : Effect) : bool :=
  match e with CallSuperOpen _ _ => true | _ => false end.

(** X12.  A caller cannot choose the mode: whatever [mode] the input
    carries, [open] behaves as for the input without it; and no input at all
    is the empty input. *)
Theorem open_ignores_caller_mode (this : t) (uri : URI) (input : Options)
    (mode : any) :
  open this uri (Some (<["mode" := mode]> input)) = open this uri (Some input)
  /\ open this uri None = open this uri (Some ∅).
Proof.
  unfold open. cbn [from_option Datatypes.id]. rewrite insert_insert_eq.
  split; reflexivity.
Qed.

(** X13.  [drawDiagram(uri)] opens with exactly the options
    [{mode: 'reveal'}]; when the promise is fulfilled it fires
    [onDiagramOpened] and then, for a [KeithDiagramWidget] only,
    reinitializes that widget for [uri]; when the promise is rejected or
    stays pending it does neither. *)
Theorem drawDiagram_effects (this : t) (uri : URI) :
  let options : Options := {["mode" := js_string "reveal"]} in
  drawDiagram this uri =
    CallSuperOpen uri options ::
    match super_open uri options with
    | Fulfilled widget =>
        Fire uri ::
        (if instanceof_KeithDiagramWidget widget
         then [ReInitialize widget uri] else [])
    | Rejected _ | Pending => []
    end
  /\ (forall (widget : Widget) (uri' : URI),
        In (ReInitialize widget uri') (drawDiagram this uri)
        <-> uri' = uri
            /\ super_open uri options = Fulfilled widget
            /\ instanceof_KeithDiagramWidget widget = true).
Proof.
  cbv zeta. unfold drawDiagram, open. cbn [from_option Datatypes.id].
  rewrite insert_empty.
  destruct (super_open uri {["mode" := js_string "reveal"]}) as [widget | e |].
  - split; [reflexivity |]. intros widget' uri'. simpl.
    destruct (instanceof_KeithDiagramWidget widget) eqn:Hkeith; simpl.
    + split.
      * intros [Hopen | [Hfire | [Hre | []]]]; try discriminate.
        inversion Hre; subst. auto.
      * intros (-> & Hw & _). inversion Hw; subst. auto.
    + split.
      * intros [Hopen | [Hfire | []]]; discriminate.
      * intros (_ & Hw & Hk). inversion Hw; subst. congruence.
  - split; [reflexivity |]. intros widget' uri'. simpl. split.
    + intros [Hopen | []]; discriminate.
    + intros (_ & Hw & _). discriminate.
  - split; [reflexivity |]. intros widget' uri'. simpl. split.
    + intros [Hopen | []]; discriminate.
    + intros (_ & Hw & _). discriminate.
Qed.

(** X14.  Whatever [onCurrentEditorChanged] does, it does for the resource
    URI of the editor that became current, and it calls [super.open] at most
    once. *)
Theorem onCurrentEditorChanged_only_editor_uri (this : t)
    (editorWidget : option EditorWidget) :
  Forall (fun e => exists editor : EditorWidget,
                     editorWidget = Some editor
                     /\ getResourceUri editor = Some (effect_uri e))
         (onCurrentEditorChanged this editorWidget)
  /\ (length (List.filter is_CallSuperOpen (onCurrentEditorChanged this editorWidget))
      <= 1)%nat.
Proof.
  unfold onCurrentEditorChanged.
  destruct (last (getWidgets this (id this))); [| split; [constructor | simpl; lia]].
  destruct editorWidget as [editor |]; [| split; [constructor | simpl; lia]].
  destruct (getResourceUri editor) as [uri |] eqn:Huri;
    [| split; [constructor | simpl; lia]].
  unfold drawDiagram, open. cbn [from_option Datatypes.id].
  destruct (super_open uri _) as [widget | e |];
    [destruct (instanceof_KeithDiagramWidget widget) |..];
    (split; [repeat constructor; exists editor; auto | simpl; lia]).
Qed.

End Manager.

(** *** The manager on a stand-in host

    A few JavaScript values and a host that treats them as Theia,
    sprotty-theia and the language do: the type guard reads properties of
    its argument, [JSON.stringify] has no serialization for a function and
    refuses a BigInt, and the registry knows the diagram type
    [keith-diagram] only. *)
Module Host.

Inductive value : Type :=
| undefined
| null
| boolean (b : bool)
| bigint (n : Z)
| closure                          (* a function *)
| widgetOptions (keith : bool).    (* [{diagramType, uri, label, iconClass}] *)

(** The properties of [widgetOptions keith]. *)
Definition diagramType_of (v : value) : string :=
  match v with
  | widgetOptions true => "keith-diagram"
  | _ => "other-diagram"
  end.

Definition uri : string := "file:///model.sctx".
Definition label : string := "Diagram".
Definition iconClass : string := "fa fa-square-o".

(** [options.diagramType && options.uri && options.label && options.iconClass] *)
Definition DiagramWidgetOptions_is (options : value) : Completion bool :=
  match options with
  | undefined | null => Throw TypeError
  | boolean _ | bigint _ | closure => Normal false
  | widgetOptions _ => Normal true
  end.

(** A string without characters to escape, as JSON. *)
Definition quoted (s : string) : string :=
  String (Ascii.ascii_of_nat 34) (s ++ String (Ascii.ascii_of_nat 34) EmptyString).

Definition JSON_stringify (v : value) : Completion (option string) :=
  match v with
  | undefined | closure => Normal None
  | null => Normal (Some "null"%string)
  | boolean true => Normal (Some "true"%string)
  | boolean false => Normal (Some "false"%string)
  | bigint _ => Throw TypeError
  | widgetOptions _ =>
      Normal (Some ("{" ++ quoted "diagramType" ++ ":" ++ quoted (diagramType_of v)
                    ++ "," ++ quoted "uri" ++ ":" ++ quoted uri
                    ++ "," ++ quoted "label" ++ ":" ++ quoted label
                    ++ "," ++ quoted "iconClass" ++ ":" ++ quoted iconClass
                    ++ "}")%string)
  end.

(** The registry holds one configuration, and a container is known by its
    name. *)
Definition diagramConfigurationRegistry_get (type : string)
  : Completion (option unit) :=
  if String.eqb type "keith-diagram" then Normal (Some tt) else Normal None.

Definition createContainer (config : unit) (name : string) : Completion string :=
  Normal name.

Definition manager : t value string unit Empty_set :=
  mk value string unit Empty_set "keith-diagram-diagram-manager" tt (fun _ => []).

Definition createWidget (options : value)
  : Completion (Widget value string unit Empty_set) :=
  KeithDiagramManager.createWidget value string unit unit Empty_set
    DiagramWidgetOptions_is diagramType_of JSON_stringify
    diagramConfigurationRegistry_get createContainer manager options.

End Host.

Example createWidget_on_host :
  Host.createWidget (Host.widgetOptions true)
  = Normal (NewKeithDiagramWidget Host.value string unit Empty_set
              (Host.widgetOptions true) "keith-diagram" "keith-diagram_sprotty" tt)
  /\ Host.createWidget (Host.boolean true)
     = Throw (Error "DiagramWidgetFactory needs DiagramWidgetOptions but got true")
  /\ Host.createWidget Host.closure
     = Throw (Error "DiagramWidgetFactory needs DiagramWidgetOptions but got undefined").
Proof. repeat split. Qed.

(** C1, as it is worded, fails.  A BigInt does not satisfy the guard, and
    [createWidget] throws the [TypeError] of [JSON.stringify], not the
    formatted [Error]; for [undefined] the guard itself throws; and options
    that satisfy the guard but name a diagram type without configuration
    make [createWidget] throw instead of returning a widget. *)
Lemma createWidget_throws_TypeError :
  (Host.DiagramWidgetOptions_is (Host.bigint 1) = Normal false
   /\ Host.createWidget (Host.bigint 1) = Throw TypeError)
  /\ (Host.DiagramWidgetOptions_is Host.undefined = Throw TypeError
      /\ Host.createWidget Host.undefined = Throw TypeError)
  /\ (Host.DiagramWidgetOptions_is (Host.widgetOptions false) = Normal true
      /\ Host.createWidget (Host.widgetOptions false) = Throw TypeError).
Proof. repeat split. Qed.

End KeithDiagramManager.

(** ** The VS Code extension ([klighd-extension.ts]) *)

Module KLighDExtension.

(** [s.endsWith(search)]: with [start = s.length - search.length], false when
    [start] is negative, and otherwise whether the code units of [s] from
    [start] on are those of [search]. *)
Definition endsWith (s search : string) : bool :=
  let len := String.length s in
  let searchLength := String.length search in
  if (len <? searchLength)%nat then false
  else String.eqb (substring (len - searchLength) searchLength s) search.

(** *** Facts about [endsWith] *)

Lemma substring_all (s : string) : substring 0 (String.length s) s = s.
Proof. induction s as [| c s IH]; simpl; [reflexivity | now rewrite IH]. Qed.

Lemma substring_after_prefix (prefix s : string) :
  substring (String.length prefix) (String.length s) (prefix ++ s) = s.
Proof.
  induction prefix as [| c prefix IH]; simpl.
  - apply substring_all.
  - exact IH.
Qed.

Lemma length_append (s1 s2 : string) :
  String.length (s1 ++ s2) = (String.length s1 + String.length s2)%nat.
Proof. induction s1 as [| c s1 IH]; simpl; [reflexivity | now rewrite IH]. Qed.

Lemma substring_split (n : nat) :
  forall s : string,
    (n <= String.length s)%nat ->
    s = (substring 0 n s ++ substring n (String.length s - n) s)%string.
Proof.
  induction n as [| n IH]; intros s Hn.
  - rewrite Nat.sub_0_r, substring_all. now destruct s.
  - destruct s as [| c s]; simpl in *; [lia |].
    change (String c s
            = String c (substring 0 n s ++ substring n (String.length s - n) s)%string).
    f_equal. apply IH. lia.
Qed.

(** [endsWith] holds exactly of the strings that have [search] as a suffix. *)
Lemma endsWith_suffix (s search : string) :
  endsWith s search = true <-> exists prefix : string, s = (prefix ++ search)%string.
Proof.
  unfold endsWith. split.
  - destruct (Nat.ltb_spec (String.length s) (String.length search)) as [| Hle];
      [discriminate |].
    intros Heq. apply String.eqb_eq in Heq.
    exists (substring 0 (String.length s - String.length search) s).
    pose proof (substring_split (String.length s - String.length search) s
                  ltac:(lia)) as Hsplit.
    replace (String.length s - (String.length s - String.length search))%nat
      with (String.length search) in Hsplit by lia.
    rewrite Heq in Hsplit. exact Hsplit.
  - intros [prefix ->]. rewrite length_append.
    destruct (Nat.ltb_spec (String.length prefix + String.length search)
                           (String.length search)) as [Hlt | _]; [lia |].
    replace (String.length prefix + String.length search - String.length search)%nat
      with (String.length prefix) by lia.
    rewrite substring_after_prefix. apply String.eqb_refl.
Qed.

Example endsWith_examples :
  endsWith "model.sctx" ".sctx" = true
  /\ endsWith "model.sctx" ".kgt" = false
  /\ endsWith "x" ".sctx" = false
  /\ endsWith "Output" "" = true.
Proof. repeat split. Qed.

(** A [vscode.Uri], by the part that is read. *)
Record Uri : Type := mkUri { path : string }.

Section Extension.

(** Given by VS Code, sprotty-vscode and [./constants]. *)
Variable LanguageClient ExtensionContext Identifier any : Type.
Variable diagramType : string.
Variable extensionId : string.

(** A command argument: an instance of [Uri], or any other value. *)
Inductive CommandArg : Type :=
| IsUri (uri : Uri)
| NotUri (value : any).

Record KLighDExtensionOptions : Type := mkOptions {
  lsClient : LanguageClient;
  supportedFileEnding : list string
}.

(** The static property [KLighDExtension.lsClient], [undefined] until the
    first construction. *)
Record Statics : Type := mkStatics {
  static_lsClient : option LanguageClient
}.

(** A webview made by [createWebView]. *)
Record SprottyWebview : Type := mkWebview {
  identifier : Identifier;
  singleton : bool
}.

(** An instance: its own field, what the base class keeps (the prefix, the
    context, and the client its constructor received from
    [activateLanguageClient]), and the webviews it manages. *)
Record t : Type := mk {
  supportedFileEndings : list string;
  extensionPrefix : string;
  context : ExtensionContext;
  languageClient : option LanguageClient;
  this_singleton : option SprottyWebview;
  webviewMap : gmap string SprottyWebview
}.

(** [activateLanguageClient(_)] returns the static property. *)
Definition activateLanguageClient (statics : Statics) (_ : ExtensionContext)
  : option LanguageClient :=
  static_lsClient statics.

(** [new KLighDExtension(context, options)]: the static property is written
    first; the base constructor then asks [activateLanguageClient] for the
    client; last, the endings are stored. *)
Definition constructor (statics : Statics) (context : ExtensionContext)
    (options : KLighDExtensionOptions) : t * Statics :=
  let statics := mkStatics (Some (lsClient options)) in
  let received := activateLanguageClient statics context in
  (mk (supportedFileEnding options) extensionId context received None ∅, statics).

Definition pathHasSupportedFileEnding (this : t) (path : string) : bool :=
  existsb (fun ending => endsWith path ending) (supportedFileEndings this).

(** [getDiagramType(commandArgs)]; [None] stands for [undefined]. *)
Definition getDiagramType (this : t) (commandArgs : list CommandArg) : option string :=
  match js_index commandArgs 0 with
  | Some (IsUri uri) =>
      if pathHasSupportedFileEnding this (path uri) then Some diagramType else None
  | _ => None
  end.

Definition createWebView (this : t) (identifier : Identifier) : SprottyWebview :=
  mkWebview identifier true.

(** Methods of the base class that the open command calls. *)
Variable createDiagramIdentifier : t -> list CommandArg -> option Identifier.
Variable getKey : t -> Identifier -> string.

Inductive WebviewEffect : Type :=
| ReloadContent (webView : SprottyWebview) (identifier : Identifier)
| Reveal (webView : SprottyWebview).

(** The handler that [registerCommands] gives to the command [diagram.open]:
    the instance afterwards, and what the webview is asked to do. *)
Definition diagram_open (this : t) (commandArgs : list CommandArg)
  : t * list WebviewEffect :=
  match createDiagramIdentifier this commandArgs with
  | Some identifier =>
      let key := getKey this identifier in
      let webView :=
        match this_singleton this with
        | Some webView => Some webView
        | None => webviewMap this !! key
        end in
      match webView with
      | Some webView => (this, [ReloadContent webView identifier; Reveal webView])
      | None =>
          let webView := createWebView this identifier in
          (mk (supportedFileEndings this) (extensionPrefix this) (context this)
              (languageClient this)
              (if singleton webView then Some webView else this_singleton this)
              (<[key := webView]> (webviewMap this)),
           [])
      end
  | None => (this, [])
  end.

(** *** The claims about the extension *)

(** C4.  The constructor stores [options.lsClient] in the static property
    before the base constructor runs, so the base constructor receives that
    very client from [activateLanguageClient], and in the state the
    constructor leaves, the hook returns it for every [ExtensionContext]. *)
Theorem activateLanguageClient_returns_stored_client
    (statics : Statics) (context : ExtensionContext)
    (options : KLighDExtensionOptions) :
  let this := fst (constructor statics context options) in
  let statics' := snd (constructor statics context options) in
  languageClient this = Some (lsClient options)
  /\ (forall other : ExtensionContext,
        activateLanguageClient statics' other = Some (lsClient options))
  /\ supportedFileEndings this = supportedFileEnding options.
Proof. cbv zeta. unfold constructor, activateLanguageClient. simpl. auto. Qed.

(** The property is shared by all instances: a later construction replaces
    the client that the hook returns. *)
Lemma later_construction_replaces_client
    (statics : Statics) (context context' : ExtensionContext)
    (options options' : KLighDExtensionOptions) :
  let statics1 := snd (constructor statics context options) in
  let statics2 := snd (constructor statics1 context' options') in
  forall other : ExtensionContext,
    activateLanguageClient statics2 other = Some (lsClient options').
Proof. reflexivity. Qed.

Lemma pathHasSupportedFileEnding_suffix (this : t) (p : string) :
  pathHasSupportedFileEnding this p = true
  <-> exists ending prefix : string,
        In ending (supportedFileEndings this) /\ p = (prefix ++ ending)%string.
Proof.
  unfold pathHasSupportedFileEnding. rewrite existsb_exists. split.
  - intros (ending & Hin & Hends). apply endsWith_suffix in Hends.
    destruct Hends as [prefix Hp]. eauto.
  - intros (ending & prefix & Hin & Hp). exists ending. split; [exact Hin |].
    apply endsWith_suffix. eauto.
Qed.

(** C9.  [getDiagramType] returns the diagram type exactly when the first
    command argument is a [Uri] whose path ends with one of the supported
    file endings, and [undefined] in every other case.  Given that the base
    class makes no diagram identifier without a diagram type, the open
    command then leaves the webviews alone: nothing is reloaded, revealed or
    created. *)
Theorem getDiagramType_supported_ending (this : t) (commandArgs : list CommandArg) :
  let supported :=
    exists (uri : Uri) (ending prefix : string),
      head commandArgs = Some (IsUri uri)
      /\ In ending (supportedFileEndings this)
      /\ path uri = (prefix ++ ending)%string in
  (supported -> getDiagramType this commandArgs = Some diagramType)
  /\ (~ supported -> getDiagramType this commandArgs = None)
  /\ (is_Some (getDiagramType this commandArgs) <-> supported)
  /\ ((forall args, getDiagramType this args = None ->
                    createDiagramIdentifier this args = None) ->
      ~ supported -> diagram_open this commandArgs = (this, [])).
Proof.
  cbv zeta.
  assert (Hiff : forall r : option string,
            getDiagramType this commandArgs = r ->
            (r = Some diagramType
             /\ exists (uri : Uri) (ending prefix : string),
                 head commandArgs = Some (IsUri uri)
                 /\ In ending (supportedFileEndings this)
                 /\ path uri = (prefix ++ ending)%string)
            \/ (r = None
                /\ ~ exists (uri : Uri) (ending prefix : string),
                    head commandArgs = Some (IsUri uri)
                    /\ In ending (supportedFileEndings this)
                    /\ path uri = (prefix ++ ending)%string)).
  { intros r <-. unfold getDiagramType, js_index. simpl.
    destruct commandArgs as [| [uri | value] rest]; simpl.
    - right. split; [reflexivity |]. intros (uri & ending & prefix & Hhead & _).
      discriminate.
    - destruct (pathHasSupportedFileEnding this (path uri)) eqn:Hpath.
      + left. split; [reflexivity |].
        apply pathHasSupportedFileEnding_suffix in Hpath.
        destruct Hpath as (ending & prefix & Hin & Hp). eauto 6.
      + right. split; [reflexivity |].
        intros (uri' & ending & prefix & Hhead & Hin & Hp).
        inversion Hhead; subst uri'.
        assert (Htrue : pathHasSupportedFileEnding this (path uri) = true)
          by (apply pathHasSupportedFileEnding_suffix; eauto).
        congruence.
    - right. split; [reflexivity |]. intros (uri & ending & prefix & Hhead & _).
      discriminate. }
  destruct (Hiff _ eq_refl) as [[Hsome Hsup] | [Hnone Hnot]].
  - rewrite Hsome. repeat match goal with |- _ /\ _ => split end.
    + reflexivity.
    + intros Hnot. contradiction.
    + split; [intros _; exact Hsup | intros _; eauto].
    + intros _ Hnot. contradiction.
  - rewrite Hnone. repeat match goal with |- _ /\ _ => split end.
    + intros Hsup. contradiction.
    + reflexivity.
    + split; [intros [x Hx]; discriminate | intros Hsup; contradiction].
    + intros Hbase _. unfold diagram_open.
      now rewrite (Hbase commandArgs Hnone).
Qed.

(** *** The commands *)

(** The base class's [findActiveWebview()]. *)
Variable findActiveWebview : t -> option SprottyWebview.

(** The actions the commands dispatch. *)
Inductive Action : Type :=
| KeithFitToScreenAction (animate : bool)
| CenterAction (elementIds : list string) (animate : bool)
| RequestExportSvgAction.

(** [webview.dispatch(action)] *)
Inductive Dispatch : Type :=
| DispatchAction (webview : SprottyWebview) (action : Action).

(** The handlers of [diagram.fit], [diagram.center] and [diagram.export]. *)
Definition diagram_fit (this : t) : list Dispatch :=
  match findActiveWebview this with
  | Some activeWebview => [DispatchAction activeWebview (KeithFitToScreenAction true)]
  | None => []
  end.

Definition diagram_center (this : t) : list Dispatch :=
  match findActiveWebview this with
  | Some activeWebview => [DispatchAction activeWebview (CenterAction [] true)]
  | None => []
  end.

Definition diagram_export (this : t) : list Dispatch :=
  match findActiveWebview this with
  | Some activeWebview => [DispatchAction activeWebview RequestExportSvgAction]
  | None => []
  end.

(** The handlers, by name. *)
Inductive Handler : Type :=
| DiagramOpen      (* [diagram_open] *)
| DiagramFit       (* [diagram_fit] *)
| DiagramCenter    (* [diagram_center] *)
| DiagramExport.   (* [diagram_export] *)

(** [registerCommands()]: the commands registered with VS Code, in the order
    in which they are pushed to [context.subscriptions]. *)
Definition registerCommands (this : t) : list (string * Handler) :=
  [ ((extensionPrefix this ++ ".diagram.open")%string, DiagramOpen);
    ((extensionPrefix this ++ ".diagram.fit")%string, DiagramFit);
    ((extensionPrefix this ++ ".diagram.center")%string, DiagramCenter);
    ((extensionPrefix this ++ ".diagram.export")%string, DiagramExport) ].

(** What a command does: it asks a webview to reload or reveal, or it
    dispatches an action to one. *)
Inductive Output : Type :=
| WebviewOutput (effect : WebviewEffect)
| DispatchOutput (dispatch : Dispatch).

(** The handler behind each name, run on the instance as it is when the
    command is invoked. *)
Definition run (handler : Handler) (this : t) (commandArgs : list CommandArg)
  : t * list Output :=
  match handler with
  | DiagramOpen =>
      (fst (diagram_open this commandArgs),
       map WebviewOutput (snd (diagram_open this commandArgs)))
  | DiagramFit => (this, map DispatchOutput (diagram_fit this))
  | DiagramCenter => (this, map DispatchOutput (diagram_center this))
  | DiagramExport => (this, map DispatchOutput (diagram_export this))
  end.

(** [commands.executeCommand(name, ...commandArgs)] on the commands of
    [registerCommands]: the handler registered under [name] runs; [None] when
    no command has that name. *)
Definition executeCommand (this : t) (name : string) (commandArgs : list CommandArg)
  : option (t * list Output) :=
  match List.find (fun command => String.eqb (fst command) name)
                  (registerCommands this) with
  | Some (_, handler) => Some (run handler this commandArgs)
  | None => None
  end.

(** The open command, run for one invocation after the other. *)
Definition diagram_open_all (this : t) (invocations : list (list CommandArg)) : t :=
  fold_left (fun this commandArgs => fst (diagram_open this commandArgs))
            invocations this.

(** At most one webview: none at all, or the singleton, which is also the
    only entry of the map. *)
Definition single_webview (this : t) : Prop :=
  match this_singleton this with
  | None => webviewMap this = ∅
  | Some webView => exists key : string, webviewMap this = {[key := webView]}
  end.

(** *** Further properties of the extension *)

Lemma append_inj_l (prefix s1 s2 : string) :
  (prefix ++ s1)%string = (prefix ++ s2)%string -> s1 = s2.
Proof.
  induction prefix as [| c prefix IH]; simpl; intros Heq; [exact Heq |].
  injection Heq as Heq. exact (IH Heq).
Qed.

Lemma append_empty_r (s : string) : (s ++ "")%string = s.
Proof.
  induction s as [| c s IH]; [reflexivity |].
  change (String c (s ++ "")%string = String c s). now rewrite IH.
Qed.

(** X15.  Without any supported ending no editor is supported; with the
    empty string among the endings every [Uri] is. *)
Theorem getDiagramType_ending_edge_cases (this : t) (commandArgs : list CommandArg) :
  (supportedFileEndings this = [] -> getDiagramType this commandArgs = None)
  /\ (In ""%string (supportedFileEndings this) ->
      forall uri : Uri,
        head commandArgs = Some (IsUri uri) ->
        getDiagramType this commandArgs = Some diagramType).
Proof.
  split.
  - intros Hnil. unfold getDiagramType, pathHasSupportedFileEnding.
    rewrite Hnil. simpl. destruct (js_index commandArgs 0) as [[uri | value] |];
      reflexivity.
  - intros Hin uri Hhead. unfold getDiagramType, js_index. simpl.
    destruct commandArgs as [| first others]; [discriminate |].
    simpl in *. inversion Hhead; subst first.
    assert (Hpath : pathHasSupportedFileEnding this (path uri) = true).
    { apply pathHasSupportedFileEnding_suffix. exists ""%string, (path uri).
      split; [exact Hin |]. symmetry. apply append_empty_r. }
    now rewrite Hpath.
Qed.

(** X16.  Support grows with the endings: what an extension supports, an
    extension with at least the same endings supports too. *)
Theorem getDiagramType_monotone (this this' : t) (commandArgs : list CommandArg) :
  (forall ending : string,
     In ending (supportedFileEndings this) -> In ending (supportedFileEndings this')) ->
  getDiagramType this commandArgs = Some diagramType ->
  getDiagramType this' commandArgs = Some diagramType.
Proof.
  intros Hsub. unfold getDiagramType.
  destruct (js_index commandArgs 0) as [[uri | value] |]; try discriminate.
  destruct (pathHasSupportedFileEnding this (path uri)) eqn:Hpath; [| discriminate].
  intros _. apply pathHasSupportedFileEnding_suffix in Hpath.
  destruct Hpath as (ending & prefix & Hin & Hp).
  assert (Hpath' : pathHasSupportedFileEnding this' (path uri) = true).
  { apply pathHasSupportedFileEnding_suffix. exists ending, prefix. auto. }
  now rewrite Hpath'.
Qed.

Lemma eqb_append_l (prefix s1 s2 : string) :
  String.eqb (prefix ++ s1) (prefix ++ s2) = String.eqb s1 s2.
Proof.
  induction prefix as [| c prefix IH]; [reflexivity |].
  change (String.eqb (String c (prefix ++ s1)) (String c (prefix ++ s2))
          = String.eqb s1 s2).
  simpl. rewrite Ascii.eqb_refl. exact IH.
Qed.

(** X17.  [registerCommands] registers four commands under distinct names,
    and each name runs its own handler: [prefix.diagram.open] the open
    handler, [prefix.diagram.fit] dispatches [KeithFitToScreenAction(true)]
    to the active webview, [prefix.diagram.center] dispatches
    [CenterAction([], true)], [prefix.diagram.export] dispatches
    [RequestExportSvgAction()]; the last three do nothing without an active
    webview and never change the extension.  No other name is registered. *)
Theorem registerCommands_by_name (this : t) (commandArgs : list CommandArg) :
  let prefix := extensionPrefix this in
  let dispatch (action : Action) : t * list Output :=
    (this,
     match findActiveWebview this with
     | Some activeWebview => [DispatchOutput (DispatchAction activeWebview action)]
     | None => []
     end) in
  NoDup (map fst (registerCommands this))
  /\ executeCommand this (prefix ++ ".diagram.open") commandArgs
     = Some (fst (diagram_open this commandArgs),
             map WebviewOutput (snd (diagram_open this commandArgs)))
  /\ executeCommand this (prefix ++ ".diagram.fit") commandArgs
     = Some (dispatch (KeithFitToScreenAction true))
  /\ executeCommand this (prefix ++ ".diagram.center") commandArgs
     = Some (dispatch (CenterAction [] true))
  /\ executeCommand this (prefix ++ ".diagram.export") commandArgs
     = Some (dispatch RequestExportSvgAction)
  /\ (forall name : string,
        ~ In name [(prefix ++ ".diagram.open")%string;
                   (prefix ++ ".diagram.fit")%string;
                   (prefix ++ ".diagram.center")%string;
                   (prefix ++ ".diagram.export")%string] ->
        executeCommand this name commandArgs = None).
Proof.
  cbv zeta. unfold executeCommand, registerCommands.
  cbn [List.find fst map]. rewrite !eqb_append_l. cbn [String.eqb Ascii.eqb Bool.eqb].
  repeat match goal with |- _ /\ _ => split end.
  - repeat (apply NoDup_cons_2;
            [intros Hin;
             repeat (apply elem_of_cons in Hin; destruct Hin as [Hin | Hin];
                     [apply append_inj_l in Hin; discriminate |]);
             apply elem_of_nil in Hin; exact Hin |]).
    apply NoDup_nil_2.
  - reflexivity.
  - unfold run, diagram_fit. now destruct (findActiveWebview this).
  - unfold run, diagram_center. now destruct (findActiveWebview this).
  - unfold run, diagram_export. now destruct (findActiveWebview this).
  - intros name Hname. simpl in Hname.
    repeat match goal with
           | |- context [String.eqb ?a name] =>
               destruct (String.eqb_spec a name); [exfalso; tauto |]
           end.
    reflexivity.
Qed.

Lemma diagram_open_single_webview (this : t) (commandArgs : list CommandArg) :
  single_webview this -> single_webview (fst (diagram_open this commandArgs)).
Proof.
  unfold single_webview, diagram_open. intros Hsingle.
  destruct (createDiagramIdentifier this commandArgs) as [identifier |];
    [| exact Hsingle].
  destruct (this_singleton this) as [webView |] eqn:Hsingleton.
  - cbn [fst]. rewrite Hsingleton. exact Hsingle.
  - rewrite Hsingle, lookup_empty. cbn. rewrite insert_empty. eauto.
Qed.

(** X18.  The extension keeps at most one webview.  If it has none, or has
    the singleton as the only entry of its map, then this is still so after
    any number of open commands, whatever their arguments. *)
Theorem diagram_open_keeps_single_webview (this : t)
    (invocations : list (list CommandArg)) :
  single_webview this ->
  single_webview (diagram_open_all this invocations)
  /\ (size (webviewMap (diagram_open_all this invocations)) <= 1)%nat.
Proof.
  intros Hsingle.
  assert (Hall : single_webview (diagram_open_all this invocations)).
  { unfold diagram_open_all. revert this Hsingle.
    induction invocations as [| commandArgs rest IH]; intros this Hsingle.
    - exact Hsingle.
    - simpl. apply IH. now apply diagram_open_single_webview. }
  split; [exact Hall |].
  unfold single_webview in Hall.
  destruct (this_singleton (diagram_open_all this invocations)).
  - destruct Hall as [key ->]. now rewrite map_size_singleton.
  - rewrite Hall, map_size_empty. lia.
Qed.

(** X19.  The first open command that yields an identifier creates the
    webview, asking nothing of it; the next one creates nothing: it reloads
    that same webview with its own identifier and reveals it. *)
Theorem diagram_open_reuses_webview (this : t) (args1 args2 : list CommandArg)
    (identifier1 identifier2 : Identifier) :
  this_singleton this = None ->
  webviewMap this !! getKey this identifier1 = None ->
  createDiagramIdentifier this args1 = Some identifier1 ->
  let this1 := fst (diagram_open this args1) in
  createDiagramIdentifier this1 args2 = Some identifier2 ->
  snd (diagram_open this args1) = []
  /\ this_singleton this1 = Some (createWebView this identifier1)
  /\ diagram_open this1 args2
     = (this1, [ReloadContent (createWebView this identifier1) identifier2;
                Reveal (createWebView this identifier1)]).
Proof.
  intros Hnone Hkey Hid1.
  assert (Hfirst : diagram_open this args1
                   = (mk (supportedFileEndings this) (extensionPrefix this)
                         (context this) (languageClient this)
                         (Some (createWebView this identifier1))
                         (<[getKey this identifier1 := createWebView this identifier1]>
                            (webviewMap this)),
                      [])).
  { unfold diagram_open. rewrite Hid1, Hnone, Hkey. reflexivity. }
  cbv zeta. rewrite Hfirst. cbn [fst snd]. intros Hid2.
  split; [reflexivity |]. split; [reflexivity |].
  unfold diagram_open. rewrite Hid2. reflexivity.
Qed.

End Extension.

(** *** The theorems at work on a sample extension

    A host with one kind of language client and of context, identifiers that
    are the path of the [Uri], and webviews keyed by their identifier. *)
Module Sample.

Definition extension (endings : list string) : t unit unit string :=
  fst (constructor unit unit string "klighd-vscode" (mkStatics unit None) tt
         (mkOptions unit tt endings)).

Definition createDiagramIdentifier (this : t unit unit string)
    (commandArgs : list (CommandArg unit)) : option string :=
  match commandArgs with
  | IsUri _ uri :: _ => Some (path uri)
  | _ => None
  end.

Definition getKey (this : t unit unit string) (identifier : string) : string :=
  identifier.

Definition file (p : string) : list (CommandArg unit) := [IsUri unit (mkUri p)].

End Sample.

Lemma getDiagramType_monotone_sample :
  getDiagramType unit unit string unit "keith-diagram"
    (Sample.extension [".kgt"; ".sctx"]%string) (Sample.file "model.sctx")
  = Some "keith-diagram"%string.
Proof.
  apply (getDiagramType_monotone unit unit string unit "keith-diagram"
           (Sample.extension [".sctx"%string])
           (Sample.extension [".kgt"; ".sctx"]%string)
           (Sample.file "model.sctx")).
  - intros ending Hin. simpl in *. tauto.
  - reflexivity.
Defined.

Lemma diagram_open_keeps_single_webview_sample :
  (size (webviewMap unit unit string
           (diagram_open_all unit unit string unit
              Sample.createDiagramIdentifier Sample.getKey
              (Sample.extension [".sctx"%string])
              [Sample.file "a.sctx"; Sample.file "b.sctx"; []]))
   <= 1)%nat.
Proof.
  apply (diagram_open_keeps_single_webview unit unit string unit
           Sample.createDiagramIdentifier Sample.getKey
           (Sample.extension [".sctx"%string])
           [Sample.file "a.sctx"; Sample.file "b.sctx"; []]).
  reflexivity.
Defined.

Lemma diagram_open_reuses_webview_sample :
  let this1 :=
    fst (diagram_open unit unit string unit
           Sample.createDiagramIdentifier Sample.getKey
           (Sample.extension [".sctx"%string]) (Sample.file "a.sctx")) in
  diagram_open unit unit string unit
    Sample.createDiagramIdentifier Sample.getKey this1 (Sample.file "b.sctx")
  = (this1,
     [ReloadContent string (mkWebview string "a.sctx" true) "b.sctx"%string;
      Reveal string (mkWebview string "a.sctx" true)]).
Proof.
  apply (diagram_open_reuses_webview unit unit string unit
           Sample.createDiagramIdentifier Sample.getKey
           (Sample.extension [".sctx"%string])
           (Sample.file "a.sctx") (Sample.file "b.sctx")
           "a.sctx"%string "b.sctx"%string);
    reflexivity.
Defined.

End KLighDExtension.
